(** * Session registry and relay router of the signaling server (server.js)

    A shallow embedding of the WebSocket signaling server: the [sessions]
    Map, the three message handlers, the close handler and the periodic
    cleanup, followed by the properties of the registry and of the relay.

    Modelling conventions.
    - A decoded message is a [json] tree, the value [JSON.parse] returned;
      [None : value] is JavaScript's [undefined].  The fields of a decoded
      object have distinct names and stand in the object's property order.
      A number is an IEEE 754 double in the canonical form of [SpecFloat]:
      [1e400] decodes to an infinity, [-0] to the negative zero.
    - A text that is sent is represented by the value it decodes to:
      [JSON_stringify v] is [v] as a peer reads it back, non-finite numbers
      turned into [null] and the negative zero into [0].
    - A socket is known by its identity ([endpoint]) and its [readyState].
    - The [sessions] Map is an association list in insertion order, with the
      key comparison of a Map (SameValueZero).
    - A handler is a function of the environment (clock, ready states) and
      the registry, returning the new registry and the list of [send] calls
      it made, in order.  A handler that can end by a raised TypeError
      returns a [completion].  Of the console output only the template
      literals are modelled, for the conversion to string that can raise.
      Every [send] on the requesting socket is the last statement on its
      path apart from log lines, so whether the library call raises there
      (the message handler catches it) changes neither the registry nor the
      other sends. *)

From Stdlib Require Import ZArith List String Bool Lia SpecFloat.
Import ListNotations.
Local Open Scope Z_scope.
#[local] Set Warnings "-register-all".

(** ** Decoded JSON records *)

Inductive json : Type :=
| JNull
| JBool (b : bool)
| JNum (x : spec_float)
| JStr (s : string)
| JArr (items : list json)
| JObj (fields : list (string * json)).

(** The double that the integer literal [n] decodes to. *)
Definition double_of_Z (n : Z) : spec_float := binary_normalize 53 1024 n 0 false.

(** A JavaScript value read from a record: [None] is [undefined]. *)
Definition value : Type := option json.

Fixpoint assoc (k : string) (fields : list (string * json)) : value :=
  match fields with
  | [] => None
  | (k', v) :: rest => if String.eqb k' k then Some v else assoc k rest
  end.

(** [data.k] for a decoded, non-null [data]: own property of an object,
    [undefined] on anything else. *)
Definition prop (data : json) (k : string) : value :=
  match data with
  | JObj fields => assoc k fields
  | _ => None
  end.

(** [JSON.stringify(v)] for a decoded [v], as the value the text decodes
    to: an infinity or a NaN is written [null], the negative zero [0]. *)
Fixpoint JSON_stringify (v : json) : json :=
  match v with
  | JNum (S754_finite _ _ _) => v
  | JNum (S754_zero _) => JNum (S754_zero false)
  | JNum _ => JNull
  | JArr items => JArr (map JSON_stringify items)
  | JObj fields => JObj (map (fun '(k, x) => (k, JSON_stringify x)) fields)
  | _ => v
  end.

(** The values that [JSON.stringify] writes as they are. *)
Fixpoint round_trips (v : json) : bool :=
  match v with
  | JNum (S754_finite _ _ _) => true
  | JNum (S754_zero neg) => negb neg
  | JNum _ => false
  | JArr items => forallb round_trips items
  | JObj fields => forallb (fun '(_, x) => round_trips x) fields
  | _ => true
  end.

(** [JSON.stringify({k1: v1, ...})]: a field whose value is [undefined] is
    left out. *)
Fixpoint defined (l : list (string * value)) : list (string * json) :=
  match l with
  | [] => []
  | (k, Some v) :: rest => (k, JSON_stringify v) :: defined rest
  | (_, None) :: rest => defined rest
  end.

Definition stringify (l : list (string * value)) : json := JObj (defined l).

(** A value as it arrives when it is a field of a sent record. *)
Definition on_wire (x : value) : value := option_map JSON_stringify x.

Definition value_round_trips (x : value) : bool :=
  match x with
  | Some v => round_trips v
  | None => true
  end.

(** ** Template literals *)

(** How a statement ends: normally, or by a raised TypeError. *)
Inductive completion (A : Type) : Type :=
| Normal (a : A)
| Throw.
Arguments Normal {A} a.
Arguments Throw {A}.

(** The conversion to string of a template literal raises a TypeError: on
    an object with an own [toString] (no decoded value is callable, and the
    inherited [valueOf] returns the object), and on an array one of whose
    elements raises ([null] elements are skipped by [join]). *)
Fixpoint ToString_throws (v : json) : bool :=
  match v with
  | JObj fields => existsb (fun '(k, _) => String.eqb k "toString") fields
  | JArr items => existsb ToString_throws items
  | _ => false
  end.

(** A template literal with the substitutions [holes]; [undefined] prints. *)
Definition interpolate (holes : list value) : completion unit :=
  if existsb (fun h => match h with Some v => ToString_throws v | None => false end) holes
  then Throw
  else Normal tt.

(** ** Sockets *)

Definition endpoint : Type := nat.

Inductive ReadyState : Type := CONNECTING | OPEN | CLOSING | CLOSED.

(** [st === WebSocket.OPEN] *)
Definition is_open (st : ReadyState) : bool :=
  match st with OPEN => true | _ => false end.

(** [x === ws] where [x] is a socket or [null]. *)
Definition same_socket (x : option endpoint) (ws : endpoint) : bool :=
  match x with
  | Some e => Nat.eqb e ws
  | None => false
  end.

(** ** Sessions and the [sessions] Map *)

Record session : Type := mkSession {
  sender : endpoint;
  receiver : option endpoint;
  fileName : value;
  fileSize : value;
  created : Z
}.

Definition number_sameValueZero (x y : spec_float) : bool :=
  match x, y with
  | S754_zero _, S754_zero _ => true
  | S754_infinity a, S754_infinity b => Bool.eqb a b
  | S754_nan, S754_nan => true
  | S754_finite a m e, S754_finite b m' e' =>
      Bool.eqb a b && Pos.eqb m m' && Z.eqb e e'
  | _, _ => false
  end.

(** Key comparison of a Map between a stored key and the key of the message
    being handled.  Arrays and objects are compared by reference, and a
    freshly decoded one is a new reference: it equals no stored key. *)
Definition sameValueZero (x y : value) : bool :=
  match x, y with
  | None, None => true
  | Some JNull, Some JNull => true
  | Some (JBool a), Some (JBool b) => Bool.eqb a b
  | Some (JNum a), Some (JNum b) => number_sameValueZero a b
  | Some (JStr a), Some (JStr b) => String.eqb a b
  | _, _ => false
  end.

(** The key that [Map.prototype.set] stores: the negative zero becomes [0]. *)
Definition stored_key (pin : value) : value :=
  match pin with
  | Some (JNum (S754_zero _)) => Some (JNum (S754_zero false))
  | _ => pin
  end.

Definition registry : Type := list (value * session).

Module JSMap.

Fixpoint get (pin : value) (m : registry) : option session :=
  match m with
  | [] => None
  | (k, s) :: rest => if sameValueZero k pin then Some s else get pin rest
  end.

Definition has (pin : value) (m : registry) : bool :=
  match get pin m with Some _ => true | None => false end.

(** [m.set(pin, s)]: replaces the value of an existing key in place,
    appends a new entry otherwise. *)
Fixpoint set (pin : value) (s : session) (m : registry) : registry :=
  match m with
  | [] => [(stored_key pin, s)]
  | (k, s0) :: rest =>
      if sameValueZero k pin then (k, s) :: rest
      else (k, s0) :: set pin s rest
  end.

End JSMap.

(** The session [s] after [s.receiver = ws]. *)
Definition paired (ws : endpoint) (s : session) : session :=
  mkSession (sender s) (Some ws) (fileName s) (fileSize s) (created s).

(** [session.receiver = ws] on the object returned by [sessions.get(pin)]:
    the object is referenced from its Map entry only, so the assignment is an
    update of that entry. *)
Fixpoint assign_receiver (pin : value) (ws : endpoint) (m : registry) : registry :=
  match m with
  | [] => []
  | (k, s) :: rest =>
      if sameValueZero k pin
      then (k, paired ws s) :: rest
      else (k, s) :: assign_receiver pin ws rest
  end.

(** The keys of a Map are pairwise distinct. *)
Definition misses (k : value) (m : registry) : bool :=
  forallb (fun e => negb (sameValueZero k (fst e))) m.

Fixpoint keys_distinct (m : registry) : bool :=
  match m with
  | [] => true
  | (k, _) :: rest => misses k rest && keys_distinct rest
  end.

(** [m'] is [m] with some entries deleted. *)
Inductive deletes : registry -> registry -> Prop :=
| deletes_nil : deletes [] []
| deletes_drop : forall x m m', deletes m m' -> deletes (x :: m) m'
| deletes_keep : forall x m m', deletes m m' -> deletes (x :: m) (x :: m').

(** ** The handler monad: clock and ready states read, registry threaded,
    sends collected *)

Record env : Type := mkEnv {
  now : Z;
  readyState : endpoint -> ReadyState
}.

Definition packet : Type := (endpoint * json)%type.

Definition handler (A : Type) : Type :=
  env -> registry -> A * registry * list packet.

Definition ret {A : Type} (a : A) : handler A :=
  fun _ m => (a, m, []).

Definition bind {A B : Type} (c : handler A) (f : A -> handler B) : handler B :=
  fun e m =>
    let '(a, m1, out1) := c e m in
    let '(b, m2, out2) := f a e m1 in
    (b, m2, out1 ++ out2).

Declare Scope handler_scope.
Delimit Scope handler_scope with handler.
Notation "x <- c1 ;; c2" := (bind c1 (fun x => c2))
  (at level 61, c1 at next level, right associativity) : handler_scope.
Notation "c1 ;; c2" := (bind c1 (fun _ => c2))
  (at level 61, right associativity) : handler_scope.
Local Open Scope handler_scope.

Definition Date_now : handler Z := fun e m => (now e, m, []).

Definition ready (ws : endpoint) : handler ReadyState :=
  fun e m => (readyState e ws, m, []).

Definition send (ws : endpoint) (msg : json) : handler unit :=
  fun _ m => (tt, m, [(ws, msg)]).

Definition sessions_has (pin : value) : handler bool :=
  fun _ m => (JSMap.has pin m, m, []).

Definition sessions_get (pin : value) : handler (option session) :=
  fun _ m => (JSMap.get pin m, m, []).

Definition sessions_set (pin : value) (s : session) : handler unit :=
  fun _ m => (tt, JSMap.set pin s m, []).

Definition modify (f : registry -> registry) : handler unit :=
  fun _ m => (tt, f m, []).

(** A loop over the entries of the Map that may end by a raised error. *)
Definition scan (f : registry -> completion unit * registry) :
    handler (completion unit) :=
  fun _ m => (fst (f m), snd (f m), []).

(** A block that cannot raise, as a statement. *)
Definition normally {A : Type} (c : handler A) : handler (completion A) :=
  fun e m => (Normal (fst (fst (c e m))), snd (fst (c e m)), snd (c e m)).

(** [try { c } catch (error) { console.error(...) }] *)
Definition try_catch (c : handler (completion unit)) : handler unit :=
  fun e m => (tt, snd (fst (c e m)), snd (c e m)).

(** How a handler ended, the registry and the sends it leaves behind. *)
Definition completion_of {A : Type} (r : A * registry * list packet) : A :=
  fst (fst r).

Definition sessions_after {A : Type} (r : A * registry * list packet) : registry :=
  snd (fst r).

Definition sent {A : Type} (r : A * registry * list packet) : list packet :=
  snd r.

(** Modelled from the ws library, which is not part of the repository:
    [WebSocket.send] writes the frame when the socket's [readyState] is
    OPEN; on a CLOSING or CLOSED socket, called without a callback as the
    server calls it, it writes nothing and returns; on a CONNECTING socket,
    a state that a socket accepted by the server is never in, it writes
    nothing and raises.  [written e calls] are the frames that the calls
    [calls] put on the wire. *)
Definition written (e : env) (calls : list packet) : list packet :=
  filter (fun p => is_open (readyState e (fst p))) calls.

(** ** The handlers *)

Definition pin_taken : json := stringify [("type"%string, Some (JStr "pin-taken"))].
Definition session_not_found : json :=
  stringify [("type"%string, Some (JStr "session-not-found"))].
Definition session_full : json := stringify [("type"%string, Some (JStr "session-full"))].

Definition session_created (pin fileName fileSize : value) : json :=
  stringify [("type"%string, Some (JStr "session-created"));
             ("pin"%string, pin);
             ("fileName"%string, fileName);
             ("fileSize"%string, fileSize)].

Definition receiver_joined (s : session) : json :=
  stringify [("type"%string, Some (JStr "receiver-joined"));
             ("fileName"%string, fileName s);
             ("fileSize"%string, fileSize s)].

Definition session_joined (s : session) : json :=
  stringify [("type"%string, Some (JStr "session-joined"));
             ("fileName"%string, fileName s);
             ("fileSize"%string, fileSize s)].

(** The log line between [sessions.set] and the reply interpolates [pin],
    [fileName] and [fileSize]: when it raises, the session is stored and the
    reply is not sent. *)
Definition handleCreateSession (ws : endpoint) (data : json) :
    handler (completion unit) :=
  let pin := prop data "pin" in
  let fileName := prop data "fileName" in
  let fileSize := prop data "fileSize" in
  taken <- sessions_has pin ;;
  if taken : bool then
    send ws pin_taken ;;
    ret (Normal tt)
  else
    t <- Date_now ;;
    sessions_set pin (mkSession ws None fileName fileSize t) ;;
    match interpolate [pin; fileName; fileSize] with
    | Throw => ret Throw
    | Normal _ =>
        send ws (session_created pin fileName fileSize) ;;
        ret (Normal tt)
    end.

(** The log line of a join interpolates [pin] after [sessions.get(pin)] has
    found a session, so [pin] is a primitive and the line cannot raise. *)
Definition handleJoinSession (ws : endpoint) (data : json) : handler unit :=
  let pin := prop data "pin" in
  found <- sessions_get pin ;;
  match found with
  | None => send ws session_not_found
  | Some s =>
      match receiver s with
      | Some _ => send ws session_full
      | None =>
          modify (assign_receiver pin ws) ;;
          st <- ready (sender s) ;;
          (if is_open st then send (sender s) (receiver_joined s) else ret tt) ;;
          send ws (session_joined s)
      end
  end.

(** The other peer of [ws] in a session, [null] for a socket that is in
    neither slot (the local [targetWs] of the signaling handler). *)
Definition targetWs (s : session) (ws : endpoint) : option endpoint :=
  if Nat.eqb (sender s) ws then receiver s
  else if same_socket (receiver s) ws then Some (sender s)
  else None.

(** The log lines of the signaling handler interpolate [type], a string, and
    [pin], a primitive once a session is found: they cannot raise. *)
Definition handleSignalingMessage (ws : endpoint) (data : json) : handler unit :=
  let pin := prop data "pin" in
  found <- sessions_get pin ;;
  match found with
  | None => send ws session_not_found
  | Some s =>
      match targetWs s ws with
      | None => ret tt
      | Some t =>
          st <- ready t ;;
          if is_open st then send t (JSON_stringify data) else ret tt
      end
  end.

(** The three cases of the switch that share the signaling handler. *)
Definition signaling_type (t : string) : bool :=
  String.eqb t "offer" || String.eqb t "answer" || String.eqb t "ice-candidate".

(** [ws.on('message')]: [message] is the outcome of [JSON.parse], [None]
    when it raised.  Reading [data.type] on [null] raises too, and so can
    the create handler; all of it is caught and only logged. *)
Definition on_message (ws : endpoint) (message : option json) : handler unit :=
  match message with
  | None => ret tt
  | Some JNull => ret tt
  | Some data =>
      match prop data "type" with
      | Some (JStr t) =>
          if String.eqb t "create-session"
          then try_catch (handleCreateSession ws data)
          else if String.eqb t "join-session" then handleJoinSession ws data
          else if signaling_type t then handleSignalingMessage ws data
          else ret tt
      | _ => ret tt
      end
  end.

(** [session.sender === ws || session.receiver === ws] *)
Definition bound (ws : endpoint) (s : session) : bool :=
  Nat.eqb (sender s) ws || same_socket (receiver s) ws.

(** [ws.on('close')]: the first entry bound to [ws] is deleted, its pin is
    logged and the scan stops.  The log line is outside any [try]. *)
Fixpoint close_scan (ws : endpoint) (m : registry) : completion unit * registry :=
  match m with
  | [] => (Normal tt, [])
  | (pin, s) :: rest =>
      if bound ws s then (interpolate [pin], rest)
      else (fst (close_scan ws rest), (pin, s) :: snd (close_scan ws rest))
  end.

Definition on_close (ws : endpoint) : handler (completion unit) :=
  scan (close_scan ws).

(** The cleanup timer: every entry older than one hour is deleted and its
    pin logged.  The log line is outside any [try]: when it raises, the
    entries after it are not visited. *)
Definition expired (t : Z) (s : session) : bool := t - created s >? 3600000.

Fixpoint cleanup_scan (t : Z) (m : registry) : completion unit * registry :=
  match m with
  | [] => (Normal tt, [])
  | (pin, s) :: rest =>
      if expired t s then
        match interpolate [pin] with
        | Throw => (Throw, rest)
        | Normal _ => cleanup_scan t rest
        end
      else (fst (cleanup_scan t rest), (pin, s) :: snd (cleanup_scan t rest))
  end.

Definition cleanup : handler (completion unit) :=
  t <- Date_now ;; scan (cleanup_scan t).

(** ** The server as a transition system *)

Inductive event : Type :=
| Message (ws : endpoint) (message : option json)
| Close (ws : endpoint)
| Tick.

Definition step (ev : event) : handler (completion unit) :=
  match ev with
  | Message ws message => normally (on_message ws message)
  | Close ws => on_close ws
  | Tick => cleanup
  end.

(** A run: each event is handled in the environment it occurs in.  An error
    that no handler catches ends the process, and the run with it. *)
Fixpoint run (evs : list (env * event)) (m : registry) : registry * list packet :=
  match evs with
  | [] => (m, [])
  | (e, ev) :: rest =>
      let r := step ev e m in
      match completion_of r with
      | Throw => (sessions_after r, sent r)
      | Normal _ =>
          let '(m', out) := run rest (sessions_after r) in
          (m', sent r ++ out)
      end
  end.

(** Registries the running server can be in: it starts with an empty Map. *)
Inductive reachable : registry -> Prop :=
| reachable_start : reachable []
| reachable_step : forall m e ev,
    reachable m -> completion_of (step ev e m) = Normal tt ->
    reachable (sessions_after (step ev e m)).

(** A record is a signaling message when the switch sends it to the
    signaling handler. *)
Definition is_signaling (data : json) : bool :=
  match prop data "type" with
  | Some (JStr t) => signaling_type t
  | _ => false
  end.

(** The replies addressed to the socket whose message is being handled. *)
Definition reply_type (t : string) : bool :=
  String.eqb t "session-created" || String.eqb t "pin-taken"
  || String.eqb t "session-joined" || String.eqb t "session-not-found"
  || String.eqb t "session-full".

Definition is_reply (msg : json) : bool :=
  match prop msg "type" with
  | Some (JStr t) => reply_type t
  | _ => false
  end.

(** ** Messages and environments of the scenarios *)

Definition create_msg (pin name : string) (size : Z) : json :=
  JObj [("type"%string, JStr "create-session"); ("pin"%string, JStr pin);
        ("fileName"%string, JStr name); ("fileSize"%string, JNum (double_of_Z size))].

Definition join_msg (pin : string) : json :=
  JObj [("type"%string, JStr "join-session"); ("pin"%string, JStr pin)].

Definition offer_msg (pin sdp : string) : json :=
  JObj [("type"%string, JStr "offer"); ("pin"%string, JStr pin);
        ("sdp"%string, JStr sdp)].

(** What the number literal [1e400] decodes to. *)
Definition too_large : json := JNum (S754_infinity false).

(** Every socket open, at time [t]. *)
Definition all_open (t : Z) : env := mkEnv t (fun _ => OPEN).

(** Socket [ws] in state [st], every other socket open, at time [t]. *)
Definition all_open_but (ws : endpoint) (st : ReadyState) (t : Z) : env :=
  mkEnv t (fun x => if Nat.eqb x ws then st else OPEN).

(** * Properties *)

(** ** Decoded values *)

Section json_induction.
Variable P : json -> Prop.
Hypothesis HNull : P JNull.
Hypothesis HBool : forall b, P (JBool b).
Hypothesis HNum : forall x, P (JNum x).
Hypothesis HStr : forall s, P (JStr s).
Hypothesis HArr : forall items, Forall P items -> P (JArr items).
Hypothesis HObj : forall fields, Forall (fun kv => P (snd kv)) fields -> P (JObj fields).

Fixpoint json_induction (v : json) : P v :=
  match v with
  | JNull => HNull
  | JBool b => HBool b
  | JNum x => HNum x
  | JStr s => HStr s
  | JArr items =>
      HArr items
        ((fix go (l : list json) : Forall P l :=
            match l with
            | [] => Forall_nil P
            | x :: r => Forall_cons x (json_induction x) (go r)
            end) items)
  | JObj fields =>
      HObj fields
        ((fix go (l : list (string * json)) : Forall (fun kv => P (snd kv)) l :=
            match l with
            | [] => Forall_nil _
            | (k, x) :: r =>
                Forall_cons (P := fun kv => P (snd kv)) (k, x) (json_induction x) (go r)
            end) fields)
  end.
End json_induction.

(** What [JSON.stringify] writes decodes to the value itself when the value
    holds no infinity, no NaN and no negative zero. *)
Lemma JSON_stringify_round_trips (v : json) :
  round_trips v = true -> JSON_stringify v = v.
Proof.
  induction v as [| b | x | s | items IH | fields IH] using json_induction; simpl.
  - reflexivity.
  - reflexivity.
  - destruct x as [[] | | |]; simpl; congruence.
  - reflexivity.
  - intros H. f_equal. induction IH as [| x items Hx _ IHitems]; [reflexivity |].
    simpl in *. apply andb_prop in H as [H1 H2].
    now rewrite (Hx H1), (IHitems H2).
  - intros H. f_equal. induction IH as [| [k x] fields Hx _ IHfields]; [reflexivity |].
    simpl in *. apply andb_prop in H as [H1 H2].
    now rewrite (Hx H1), (IHfields H2).
Qed.

Lemma on_wire_round_trips (x : value) :
  value_round_trips x = true -> on_wire x = x.
Proof.
  destruct x as [v |]; simpl; [| reflexivity].
  intros H. now rewrite (JSON_stringify_round_trips v H).
Qed.

(** ** Key comparison *)

Lemma number_sameValueZero_sym (x y : spec_float) :
  number_sameValueZero x y = number_sameValueZero y x.
Proof.
  destruct x as [a | a | | a p z], y as [b | b | | b q w]; simpl; try reflexivity.
  - now destruct a, b.
  - rewrite (Pos.eqb_sym p q), (Z.eqb_sym z w). now destruct a, b.
Qed.

Lemma number_sameValueZero_trans (x y z : spec_float) :
  number_sameValueZero x y = true -> number_sameValueZero y z = true ->
  number_sameValueZero x z = true.
Proof.
  destruct x, y; simpl; try discriminate; destruct z; simpl; try discriminate; auto.
  - intros H1 H2. apply Bool.eqb_prop in H1, H2. subst. apply Bool.eqb_reflx.
  - intros [[H1 H2]%andb_prop H3]%andb_prop [[H4 H5]%andb_prop H6]%andb_prop.
    apply Bool.eqb_prop in H1, H4. apply Pos.eqb_eq in H2, H5. apply Z.eqb_eq in H3, H6.
    subst. now rewrite Bool.eqb_reflx, Pos.eqb_refl, Z.eqb_refl.
Qed.

Lemma sameValueZero_sym (x y : value) : sameValueZero x y = sameValueZero y x.
Proof.
  destruct x as [[| a | a | a | a | a]|], y as [[| b | b | b | b | b]|];
    simpl; try reflexivity.
  - now destruct a, b.
  - apply number_sameValueZero_sym.
  - apply String.eqb_sym.
Qed.

Lemma sameValueZero_trans (x y z : value) :
  sameValueZero x y = true -> sameValueZero y z = true -> sameValueZero x z = true.
Proof.
  destruct x as [[| a | a | a | a | a]|], y as [[| b | b | b | b | b]|];
    simpl; try discriminate;
    destruct z as [[| c | c | c | c | c]|]; simpl; try discriminate; auto.
  - intros H1 H2. apply Bool.eqb_prop in H1, H2. subst. apply Bool.eqb_reflx.
  - apply number_sameValueZero_trans.
  - intros H1 H2. apply String.eqb_eq in H1, H2. subst. apply String.eqb_refl.
Qed.

(** A key that matches something matches itself. *)
Lemma sameValueZero_self (k pin : value) :
  sameValueZero k pin = true -> sameValueZero pin pin = true.
Proof.
  intros H. apply sameValueZero_trans with (y := k); [| exact H].
  now rewrite sameValueZero_sym.
Qed.

(** Two keys that match the same third one match each other's matches. *)
Lemma sameValueZero_trans_false (k k' pin : value) :
  sameValueZero k pin = true -> sameValueZero k k' = false ->
  sameValueZero k' pin = false.
Proof.
  intros Hk Hkk'. destruct (sameValueZero k' pin) eqn:Hk'; [| reflexivity].
  rewrite <- Hkk'. symmetry. apply sameValueZero_trans with (y := pin); [exact Hk |].
  now rewrite sameValueZero_sym.
Qed.

Lemma stored_key_matches (pin : value) :
  sameValueZero pin pin = true -> sameValueZero (stored_key pin) pin = true.
Proof. now destruct pin as [[| b | [] | s | l | l] |]. Qed.

Lemma stored_key_compare (k pin : value) :
  sameValueZero k (stored_key pin) = sameValueZero k pin.
Proof.
  destruct pin as [[| b | [] | s | l | l] |]; try reflexivity;
    now destruct k as [[| b' | [] | s' | l' | l'] |].
Qed.

(** A key that prints is a key that can be looked up, or [undefined]:
    arrays and objects are the only values whose conversion can raise. *)
Lemma matched_key_prints (k pin : value) :
  sameValueZero k pin = true -> interpolate [k] = Normal tt.
Proof. now destruct k as [[| b | x | s | l | l] |], pin as [[| b' | x' | s' | l' | l'] |]. Qed.

(** ** The Map *)

Lemma keys_distinct_cons (k : value) (s : session) (m : registry) :
  keys_distinct ((k, s) :: m) = misses k m && keys_distinct m.
Proof. reflexivity. Qed.

Lemma get_none_misses (pin : value) (m : registry) :
  JSMap.get pin m = None <-> forallb (fun e => negb (sameValueZero (fst e) pin)) m = true.
Proof.
  induction m as [| [k s] m IH]; simpl.
  - tauto.
  - destruct (sameValueZero k pin); simpl.
    + split; discriminate.
    + exact IH.
Qed.

Lemma misses_get (k pin : value) (m : registry) :
  misses k m = true -> sameValueZero k pin = true -> JSMap.get pin m = None.
Proof.
  intros Hm Hk. apply get_none_misses.
  unfold misses in Hm. rewrite forallb_forall in *.
  intros [k' s'] Hin. specialize (Hm _ Hin). simpl in *.
  apply negb_true_iff in Hm. apply negb_true_iff.
  now apply sameValueZero_trans_false with (k := k).
Qed.

Lemma misses_incl (k : value) (m m' : registry) :
  incl m' m -> misses k m = true -> misses k m' = true.
Proof.
  unfold misses. rewrite !forallb_forall. intros Hi H x Hx. apply H, Hi, Hx.
Qed.

Lemma has_false_get (pin : value) (m : registry) :
  JSMap.has pin m = false <-> JSMap.get pin m = None.
Proof. unfold JSMap.has. destruct (JSMap.get pin m); split; congruence. Qed.

(** [sessions.has(pin)] holds exactly when an entry is keyed by [pin]. *)
Lemma has_iff_keyed (pin : value) (m : registry) :
  JSMap.has pin m = true <->
  exists k s, In (k, s) m /\ sameValueZero k pin = true.
Proof.
  unfold JSMap.has. induction m as [| [k s0] m IH]; simpl.
  - split; [discriminate | now intros (k & s & [] & _)].
  - destruct (sameValueZero k pin) eqn:Hk.
    + split; [intros _ | reflexivity]. exists k, s0. split; [now left | exact Hk].
    + rewrite IH. split; intros (k' & s & Hin & Hk'); exists k', s.
      * split; [now right | exact Hk'].
      * destruct Hin as [[= -> _] | Hin]; [congruence | now split].
Qed.

Lemma get_some_self (pin : value) (m : registry) (s : session) :
  JSMap.get pin m = Some s -> sameValueZero pin pin = true.
Proof.
  induction m as [| [k s0] m IH]; simpl; [discriminate |].
  destruct (sameValueZero k pin) eqn:Hk; [intros _ | exact IH].
  exact (sameValueZero_self _ _ Hk).
Qed.

Lemma set_fresh (pin : value) (s : session) (m : registry) :
  JSMap.has pin m = false -> JSMap.set pin s m = m ++ [(stored_key pin, s)].
Proof.
  rewrite has_false_get.
  induction m as [| [k s0] m IH]; simpl; intros H.
  - reflexivity.
  - destruct (sameValueZero k pin); [discriminate |].
    now rewrite IH.
Qed.

Lemma get_app_left (pin : value) (m m' : registry) (s : session) :
  JSMap.get pin m = Some s -> JSMap.get pin (m ++ m') = Some s.
Proof.
  induction m as [| [k s0] m IH]; simpl; [discriminate |].
  destruct (sameValueZero k pin); auto.
Qed.

Lemma get_snoc_fresh (pin : value) (s : session) (m : registry) :
  JSMap.get pin m = None -> sameValueZero pin pin = true ->
  JSMap.get pin (m ++ [(stored_key pin, s)]) = Some s.
Proof.
  intros Hget Hpin. induction m as [| [k s0] m IH]; simpl in *.
  - now rewrite (stored_key_matches _ Hpin).
  - destruct (sameValueZero k pin); [discriminate | now apply IH].
Qed.

(** ** The handlers, computed *)

Lemma handleCreateSession_eq (ws : endpoint) (data : json) (e : env) (m : registry) :
  handleCreateSession ws data e m =
  let pin := prop data "pin" in
  let fileName := prop data "fileName" in
  let fileSize := prop data "fileSize" in
  if JSMap.has pin m then (Normal tt, m, [(ws, pin_taken)])
  else
    match interpolate [pin; fileName; fileSize] with
    | Throw => (Throw, JSMap.set pin (mkSession ws None fileName fileSize (now e)) m, [])
    | Normal _ =>
        (Normal tt, JSMap.set pin (mkSession ws None fileName fileSize (now e)) m,
         [(ws, session_created pin fileName fileSize)])
    end.
Proof.
  unfold handleCreateSession, bind, sessions_has, sessions_set, Date_now, send, ret.
  cbv zeta. destruct (JSMap.has _ m); [reflexivity |].
  now destruct (interpolate _).
Qed.

Lemma handleJoinSession_eq (ws : endpoint) (data : json) (e : env) (m : registry) :
  handleJoinSession ws data e m =
  let pin := prop data "pin" in
  match JSMap.get pin m with
  | None => (tt, m, [(ws, session_not_found)])
  | Some s =>
      match receiver s with
      | Some _ => (tt, m, [(ws, session_full)])
      | None =>
          (tt, assign_receiver pin ws m,
           (if is_open (readyState e (sender s))
            then [(sender s, receiver_joined s)] else [])
           ++ [(ws, session_joined s)])
      end
  end.
Proof.
  unfold handleJoinSession, bind, sessions_get, modify, ready, send, ret.
  cbv zeta. destruct (JSMap.get _ m) as [s |]; [| reflexivity].
  destruct (receiver s); [reflexivity |].
  now destruct (is_open _).
Qed.

Lemma handleSignalingMessage_eq (ws : endpoint) (data : json) (e : env) (m : registry) :
  handleSignalingMessage ws data e m =
  match JSMap.get (prop data "pin") m with
  | None => (tt, m, [(ws, session_not_found)])
  | Some s =>
      match targetWs s ws with
      | None => (tt, m, [])
      | Some t =>
          (tt, m, if is_open (readyState e t) then [(t, JSON_stringify data)] else [])
      end
  end.
Proof.
  unfold handleSignalingMessage, bind, sessions_get, ready, send, ret.
  cbv zeta. destruct (JSMap.get _ m) as [s |]; [| reflexivity].
  destruct (targetWs s ws); [| reflexivity].
  now destruct (is_open _).
Qed.

(** What a create leaves in the registry, whether or not its log line
    raises. *)
Lemma sessions_after_create (ws : endpoint) (data : json) (e : env) (m : registry) :
  sessions_after (handleCreateSession ws data e m) =
  if JSMap.has (prop data "pin") m then m
  else JSMap.set (prop data "pin")
         (mkSession ws None (prop data "fileName") (prop data "fileSize") (now e)) m.
Proof.
  rewrite handleCreateSession_eq. cbv zeta.
  destruct (JSMap.has _ m); [reflexivity |]. now destruct (interpolate _).
Qed.

Lemma on_message_signaling (ws : endpoint) (data : json) :
  is_signaling data = true ->
  on_message ws (Some data) = handleSignalingMessage ws data.
Proof.
  unfold is_signaling, on_message, signaling_type.
  destruct data; simpl; try discriminate.
  destruct (assoc "type" fields) as [[| b | n | t | l | l] |]; try discriminate.
  intros H.
  destruct (String.eqb_spec t "create-session") as [-> | _]; [discriminate |].
  destruct (String.eqb_spec t "join-session") as [-> | _]; [discriminate |].
  unfold signaling_type. now rewrite H.
Qed.

Lemma on_message_create (ws : endpoint) (data : json) :
  prop data "type" = Some (JStr "create-session") ->
  on_message ws (Some data) = try_catch (handleCreateSession ws data).
Proof.
  destruct data; simpl; try discriminate. now intros ->.
Qed.

Lemma on_message_join (ws : endpoint) (data : json) :
  prop data "type" = Some (JStr "join-session") ->
  on_message ws (Some data) = handleJoinSession ws data.
Proof.
  destruct data; simpl; try discriminate. now intros ->.
Qed.

(** ** Creation *)

Lemma app_one_neq {A : Type} (l : list A) (x : A) : l <> l ++ [x].
Proof.
  intros H. apply (f_equal (@List.length A)) in H.
  rewrite length_app in H. simpl in H. lia.
Qed.

(** C1. A create inserts a new open session (initiator the requesting
    socket, no responder, creation time the current time) exactly when no
    session holds the pin; when the pin is held it answers pin-taken and the
    registry is unchanged.  The reply session-created follows the insertion
    unless the log line in between raises. *)
Theorem createSession_iff_pin_free (e : env) (ws : endpoint) (data : json)
    (m : registry) :
  let pin := prop data "pin" in
  let fileName := prop data "fileName" in
  let fileSize := prop data "fileSize" in
  let r := handleCreateSession ws data e m in
  (JSMap.has pin m = false <->
   sessions_after r
   = m ++ [(stored_key pin, mkSession ws None fileName fileSize (now e))])
  /\ (JSMap.has pin m = false -> interpolate [pin; fileName; fileSize] = Normal tt ->
      sent r = [(ws, session_created pin fileName fileSize)])
  /\ (JSMap.has pin m = true ->
      sessions_after r = m
      /\ sent r = [(ws, JObj [("type"%string, JStr "pin-taken")])]).
Proof.
  cbv zeta. rewrite sessions_after_create, handleCreateSession_eq. cbv zeta.
  destruct (JSMap.has (prop data "pin") m) eqn:Hhas.
  - repeat split; try discriminate; auto.
    intros H. now apply app_one_neq in H.
  - rewrite (set_fresh _ _ _ Hhas). repeat split; auto; try discriminate.
    intros _ ->. reflexivity.
Qed.

(** Two connections create pin 1234 one after the other: the second one is
    told pin-taken and the registry keeps the first session. *)
Lemma create_twice_pin_taken :
  let m := sessions_after
             (handleCreateSession 1%nat (create_msg "1234" "a.txt" 10) (all_open 5) []) in
  let r := handleCreateSession 2%nat (create_msg "1234" "b.txt" 20) (all_open 6) m in
  sessions_after r = m
  /\ sent r = [(2%nat, JObj [("type"%string, JStr "pin-taken")])].
Proof.
  cbv zeta.
  apply (createSession_iff_pin_free (all_open 6) 2%nat (create_msg "1234" "b.txt" 20)).
  reflexivity.
Defined.

(** ** Joining *)

Lemma get_assign_receiver (pin : value) (ws : endpoint) (m : registry) (s : session) :
  JSMap.get pin m = Some s ->
  JSMap.get pin (assign_receiver pin ws m) = Some (paired ws s).
Proof.
  induction m as [| [k s0] m IH]; simpl; [discriminate |].
  destruct (sameValueZero k pin) eqn:Hk; simpl; rewrite Hk.
  - now intros [= ->].
  - exact IH.
Qed.

(** Binding the responder of an open session leaves every paired session
    as it is. *)
Lemma get_assign_receiver_paired (pin pin' : value) (ws r : endpoint)
    (m : registry) (s s' : session) :
  JSMap.get pin m = Some s -> receiver s = None ->
  JSMap.get pin' m = Some s' -> receiver s' = Some r ->
  JSMap.get pin' (assign_receiver pin ws m) = Some s'.
Proof.
  intros Hs Hopen Hs' Hfull. revert Hs Hs'.
  induction m as [| [k s0] m IH]; simpl; [discriminate |].
  destruct (sameValueZero k pin) eqn:Hk, (sameValueZero k pin') eqn:Hk';
    simpl; rewrite ?Hk'; auto.
  intros [= ->] [= ->]. congruence.
Qed.

Lemma metadata_of_reply (t : string) (name size : value) :
  let msg := stringify [("type"%string, Some (JStr t));
                        ("fileName"%string, name); ("fileSize"%string, size)] in
  prop msg "type" = Some (JStr t)
  /\ prop msg "fileName" = on_wire name
  /\ prop msg "fileSize" = on_wire size.
Proof. destruct name, size; repeat split. Qed.

(** C2, as the code has it. A join on an unknown pin is answered
    session-not-found and a join on a paired session session-full, the
    registry unchanged; a join on an open session binds the socket as
    responder and answers session-joined with the file name and size stored
    in the session as JSON.stringify writes them, which is as they are
    unless they hold a non-finite number or a negative zero; the initiator
    is sent receiver-joined with the same metadata when its channel is open,
    and nothing when it is not. *)
Theorem joinSession_outcomes (e : env) (ws : endpoint) (data : json) (m : registry) :
  let pin := prop data "pin" in
  let r := handleJoinSession ws data e m in
  (JSMap.get pin m = None ->
   sessions_after r = m
   /\ sent r = [(ws, JObj [("type"%string, JStr "session-not-found")])])
  /\ (forall s x, JSMap.get pin m = Some s -> receiver s = Some x ->
      sessions_after r = m
      /\ sent r = [(ws, JObj [("type"%string, JStr "session-full")])])
  /\ (forall s, JSMap.get pin m = Some s -> receiver s = None ->
      JSMap.get pin (sessions_after r) = Some (paired ws s)
      /\ (readyState e (sender s) = OPEN ->
          sent r = [(sender s, receiver_joined s); (ws, session_joined s)])
      /\ (readyState e (sender s) <> OPEN ->
          sent r = [(ws, session_joined s)])
      /\ (prop (session_joined s) "type" = Some (JStr "session-joined")
          /\ prop (session_joined s) "fileName" = on_wire (fileName s)
          /\ prop (session_joined s) "fileSize" = on_wire (fileSize s))
      /\ (prop (receiver_joined s) "type" = Some (JStr "receiver-joined")
          /\ prop (receiver_joined s) "fileName" = on_wire (fileName s)
          /\ prop (receiver_joined s) "fileSize" = on_wire (fileSize s))
      /\ (value_round_trips (fileName s) = true -> on_wire (fileName s) = fileName s)
      /\ (value_round_trips (fileSize s) = true -> on_wire (fileSize s) = fileSize s)).
Proof.
  cbv zeta. rewrite handleJoinSession_eq. cbv zeta.
  unfold sessions_after, sent. split; [| split].
  - intros ->. now split.
  - intros s x -> ->. now split.
  - intros s Hs Hopen. rewrite Hs, Hopen. simpl.
    split; [now apply get_assign_receiver |].
    split; [now intros -> |].
    split; [destruct (readyState e (sender s)); simpl; congruence |].
    split; [apply metadata_of_reply |].
    split; [apply metadata_of_reply |].
    split; apply on_wire_round_trips.
Qed.

(** The scenario of the protocol: pin 1234 is created for a.txt (10 bytes),
    then joined from a second connection, both channels open. *)
Lemma join_scenario :
  let m := sessions_after
             (handleCreateSession 1%nat (create_msg "1234" "a.txt" 10) (all_open 5) []) in
  let r := handleJoinSession 2%nat (join_msg "1234") (all_open 6) m in
  sent r =
  [(1%nat, JObj [("type"%string, JStr "receiver-joined");
                 ("fileName"%string, JStr "a.txt");
                 ("fileSize"%string, JNum (double_of_Z 10))]);
   (2%nat, JObj [("type"%string, JStr "session-joined");
                 ("fileName"%string, JStr "a.txt");
                 ("fileSize"%string, JNum (double_of_Z 10))])].
Proof.
  cbv zeta.
  pose proof (joinSession_outcomes (all_open 6) 2%nat (join_msg "1234")
    (sessions_after
       (handleCreateSession 1%nat (create_msg "1234" "a.txt" 10) (all_open 5) [])))
    as H.
  cbv zeta in H. destruct H as (_ & _ & H).
  destruct (H (mkSession 1%nat None (Some (JStr "a.txt"))
                 (Some (JNum (double_of_Z 10))) 5)
              eq_refl eq_refl) as (_ & Hopen & _).
  exact (Hopen eq_refl).
Defined.

(** C2 fails as stated, twice.  First: the initiator's channel is closing
    (its close event has not been handled yet) when the second connection
    joins; the join succeeds and the initiator is sent nothing.  Second: the
    session was created with the file size 1e400, stored as an infinity;
    the joiner and the initiator are sent the file size null. *)
Lemma join_not_notified_or_metadata_rewritten :
  (let m := sessions_after
              (handleCreateSession 1%nat (create_msg "1234" "a.txt" 10) (all_open 5) []) in
   let r := handleJoinSession 2%nat (join_msg "1234") (all_open_but 1%nat CLOSING 6) m in
   JSMap.get (Some (JStr "1234")) (sessions_after r)
   = Some (mkSession 1%nat (Some 2%nat) (Some (JStr "a.txt"))
             (Some (JNum (double_of_Z 10))) 5)
   /\ sent r = [(2%nat, JObj [("type"%string, JStr "session-joined");
                              ("fileName"%string, JStr "a.txt");
                              ("fileSize"%string, JNum (double_of_Z 10))])]
   /\ forall msg, ~ In (1%nat, msg) (sent r))
  /\ (let big := JObj [("type"%string, JStr "create-session");
                       ("pin"%string, JStr "1234");
                       ("fileName"%string, JStr "a.txt");
                       ("fileSize"%string, too_large)] in
      let m := sessions_after (handleCreateSession 1%nat big (all_open 5) []) in
      let r := handleJoinSession 2%nat (join_msg "1234") (all_open 6) m in
      JSMap.get (Some (JStr "1234")) m
      = Some (mkSession 1%nat None (Some (JStr "a.txt")) (Some too_large) 5)
      /\ sent r = [(1%nat, JObj [("type"%string, JStr "receiver-joined");
                                 ("fileName"%string, JStr "a.txt");
                                 ("fileSize"%string, JNull)]);
                   (2%nat, JObj [("type"%string, JStr "session-joined");
                                 ("fileName"%string, JStr "a.txt");
                                 ("fileSize"%string, JNull)])]
      /\ Some JNull <> Some too_large).
Proof.
  cbv zeta. repeat split; try discriminate.
  intros msg [H | []]. discriminate H.
Qed.

(** ** The switch of the message handler *)

Lemma on_message_cases (ws : endpoint) (message : option json) (e : env) (m : registry) :
  on_message ws message e m = (tt, m, [])
  \/ exists data, message = Some data
     /\ (on_message ws message e m = try_catch (handleCreateSession ws data) e m
         \/ on_message ws message e m = handleJoinSession ws data e m
         \/ (is_signaling data = true
             /\ on_message ws message e m = handleSignalingMessage ws data e m)).
Proof.
  destruct message as [data |]; [| now left].
  destruct data as [| b | n | t | l | fields]; try now left.
  unfold on_message, is_signaling. simpl.
  destruct (assoc "type" fields) as [[| b | n | t | l | l] |] eqn:Hty;
    try now left.
  destruct (String.eqb t "create-session");
    [right; eexists; split; [reflexivity | now left] |].
  destruct (String.eqb t "join-session");
    [right; eexists; split; [reflexivity | right; now left] |].
  destruct (signaling_type t) eqn:Ht; [| now left].
  right. eexists. split; [reflexivity |]. right. right.
  split; [simpl; now rewrite Hty | reflexivity].
Qed.

Lemma try_catch_create (ws : endpoint) (data : json) (e : env) (m : registry) :
  sessions_after (try_catch (handleCreateSession ws data) e m)
  = sessions_after (handleCreateSession ws data e m)
  /\ sent (try_catch (handleCreateSession ws data) e m)
     = sent (handleCreateSession ws data e m).
Proof. split; reflexivity. Qed.

Lemma sent_create (ws : endpoint) (data : json) (e : env) (m : registry) :
  sent (handleCreateSession ws data e m) = []
  \/ sent (handleCreateSession ws data e m) = [(ws, pin_taken)]
  \/ sent (handleCreateSession ws data e m)
     = [(ws, session_created (prop data "pin") (prop data "fileName")
               (prop data "fileSize"))].
Proof.
  rewrite handleCreateSession_eq. cbv zeta.
  destruct (JSMap.has _ m); [now right; left |].
  destruct (interpolate _); [now right; right | now left].
Qed.

(** ** Scans of the Map *)

Lemma deletes_refl (m : registry) : deletes m m.
Proof. induction m; [apply deletes_nil | now apply deletes_keep]. Qed.

Lemma deletes_incl (m m' : registry) : deletes m m' -> incl m' m.
Proof.
  induction 1 as [| x m m' _ IH | x m m' _ IH].
  - apply incl_refl.
  - now apply incl_tl.
  - apply incl_cons; [now left | now apply incl_tl].
Qed.

Lemma cleanup_scan_deletes (t : Z) (m : registry) :
  deletes m (snd (cleanup_scan t m)).
Proof.
  induction m as [| [k s] m IH]; simpl; [apply deletes_nil |].
  destruct (expired t s); [| now apply deletes_keep].
  destruct (interpolate [k]); simpl; apply deletes_drop;
    [exact IH | apply deletes_refl].
Qed.

Lemma close_scan_deletes (ws : endpoint) (m : registry) :
  deletes m (snd (close_scan ws m)).
Proof.
  induction m as [| [k s] m IH]; simpl; [apply deletes_nil |].
  destruct (bound ws s); simpl;
    [apply deletes_drop, deletes_refl | now apply deletes_keep].
Qed.

Lemma keys_distinct_deletes (m m' : registry) :
  deletes m m' -> keys_distinct m = true -> keys_distinct m' = true.
Proof.
  induction 1 as [| [k s] m m' _ IH | [k s] m m' Hd IH]; [auto | |];
    rewrite keys_distinct_cons; intros [Hk Hm]%andb_prop; [now apply IH |].
  rewrite keys_distinct_cons, (IH Hm), andb_true_r.
  exact (misses_incl _ _ _ (deletes_incl _ _ Hd) Hk).
Qed.

(** Deleting entries of a Map leaves the session of a pin as it is or
    removes it. *)
Lemma get_deletes (pin : value) (m m' : registry) :
  deletes m m' -> keys_distinct m = true ->
  JSMap.get pin m' = JSMap.get pin m \/ JSMap.get pin m' = None.
Proof.
  induction 1 as [| [k s] m m' Hd IH | [k s] m m' Hd IH]; [now left | |];
    rewrite keys_distinct_cons; intros [Hk Hm]%andb_prop; simpl.
  - destruct (sameValueZero k pin) eqn:Hkp; [| now apply IH].
    right. apply (misses_get k); [| exact Hkp].
    exact (misses_incl _ _ _ (deletes_incl _ _ Hd) Hk).
  - destruct (sameValueZero k pin); [now left | now apply IH].
Qed.

Lemma cleanup_keeps_unexpired (t : Z) (m : registry) (x : value * session) :
  In x m -> expired t (snd x) = false -> In x (snd (cleanup_scan t m)).
Proof.
  induction m as [| [k s] m IH]; [intros [] |]. simpl.
  intros [<- | Hin] Hx; simpl in *.
  - rewrite Hx. now left.
  - destruct (expired t s).
    + destruct (interpolate [k]); [now apply IH | exact Hin].
    + right. now apply IH.
Qed.

Lemma get_cleanup_unexpired (t : Z) (pin : value) (m : registry) (s : session) :
  JSMap.get pin m = Some s -> expired t s = false ->
  JSMap.get pin (snd (cleanup_scan t m)) = Some s.
Proof.
  induction m as [| [k s0] m IH]; simpl; [discriminate |].
  destruct (sameValueZero k pin) eqn:Hk.
  - intros [= ->] Hs. rewrite Hs. simpl. now rewrite Hk.
  - intros Hget Hs. destruct (expired t s0).
    + destruct (interpolate [k]); [now apply IH | exact Hget].
    + simpl. rewrite Hk. now apply IH.
Qed.

(** A sweep that runs to its end filters the Map. *)
Lemma cleanup_normal_filter (t : Z) (m : registry) :
  fst (cleanup_scan t m) = Normal tt ->
  snd (cleanup_scan t m) = filter (fun x => negb (expired t (snd x))) m.
Proof.
  induction m as [| [k s] m IH]; [reflexivity |]. simpl.
  destruct (expired t s); simpl.
  - destruct (interpolate [k]); [exact IH | discriminate].
  - intros H. now rewrite (IH H).
Qed.

(** A sweep runs to its end exactly when the pin of every expired session
    prints. *)
Lemma cleanup_normal_iff (t : Z) (m : registry) :
  fst (cleanup_scan t m) = Normal tt <->
  forall p s, In (p, s) m -> expired t s = true -> interpolate [p] = Normal tt.
Proof.
  induction m as [| [k s0] m IH]; simpl.
  - split; [intros _ p s [] | reflexivity].
  - destruct (expired t s0) eqn:Hexp; simpl.
    + destruct (interpolate [k]) as [[] |] eqn:Hk.
      * rewrite IH. split.
        -- intros H p s [[= <- <-] | Hin] Hs; [exact Hk | exact (H p s Hin Hs)].
        -- intros H p s Hin. apply H. now right.
      * split; [discriminate |]. intros H.
        specialize (H k s0 (or_introl eq_refl) Hexp). congruence.
    + rewrite IH. split.
      * intros H p s [[= <- <-] | Hin] Hs; [congruence | exact (H p s Hin Hs)].
      * intros H p s Hin. apply H. now right.
Qed.

Lemma get_filter_expired (t : Z) (pin : value) (m : registry) (s : session) :
  keys_distinct m = true -> JSMap.get pin m = Some s -> expired t s = true ->
  JSMap.get pin (filter (fun x => negb (expired t (snd x))) m) = None.
Proof.
  induction m as [| [k s0] m IH]; [discriminate |].
  rewrite keys_distinct_cons. intros [Hk Hm]%andb_prop. simpl.
  destruct (sameValueZero k pin) eqn:Hkp.
  - intros [= ->] Hs. rewrite Hs. simpl.
    apply (misses_get k); [| exact Hkp].
    apply (misses_incl _ m); [apply incl_filter | exact Hk].
  - intros Hget Hs. destruct (expired t s0); simpl; [now apply IH |].
    rewrite Hkp. now apply IH.
Qed.

(** ** The keys of the registry stay pairwise distinct *)

Lemma misses_assign_receiver (k pin : value) (ws : endpoint) (m : registry) :
  misses k (assign_receiver pin ws m) = misses k m.
Proof.
  unfold misses.
  induction m as [| [k0 s0] m IH]; [reflexivity |]. simpl.
  destruct (sameValueZero k0 pin); simpl; [reflexivity |].
  now rewrite IH.
Qed.

Lemma keys_distinct_assign_receiver (pin : value) (ws : endpoint) (m : registry) :
  keys_distinct (assign_receiver pin ws m) = keys_distinct m.
Proof.
  induction m as [| [k0 s0] m IH]; [reflexivity |]. simpl.
  destruct (sameValueZero k0 pin); simpl; [reflexivity |].
  now rewrite misses_assign_receiver, IH.
Qed.

Lemma keys_distinct_snoc (pin : value) (s : session) (m : registry) :
  keys_distinct m = true -> JSMap.get pin m = None ->
  keys_distinct (m ++ [(stored_key pin, s)]) = true.
Proof.
  induction m as [| [k0 s0] m IH]; [reflexivity |].
  rewrite keys_distinct_cons. intros [Hk Hm]%andb_prop. simpl.
  destruct (sameValueZero k0 pin) eqn:Hkp; [discriminate |]. intros Hget.
  rewrite (IH Hm Hget), andb_true_r.
  unfold misses in *. rewrite forallb_app, Hk. simpl.
  now rewrite stored_key_compare, Hkp.
Qed.

Lemma step_keys_distinct (ev : event) (e : env) (m : registry) :
  keys_distinct m = true -> keys_distinct (sessions_after (step ev e m)) = true.
Proof.
  intros Hm. destruct ev as [ws message | ws |]; unfold sessions_after; simpl.
  - destruct (on_message_cases ws message e m)
      as [-> | (data & _ & [-> | [-> | [_ ->]]])]; [exact Hm | | |].
    + change (keys_distinct (sessions_after (handleCreateSession ws data e m)) = true).
      rewrite sessions_after_create.
      destruct (JSMap.has _ m) eqn:Hhas; [exact Hm |].
      rewrite (set_fresh _ _ _ Hhas).
      apply keys_distinct_snoc; [exact Hm | now apply has_false_get].
    + rewrite handleJoinSession_eq. cbv zeta.
      destruct (JSMap.get _ m) as [s |]; [| exact Hm].
      destruct (receiver s); [exact Hm |].
      simpl. now rewrite keys_distinct_assign_receiver.
    + rewrite handleSignalingMessage_eq.
      destruct (JSMap.get _ m) as [s |]; [| exact Hm].
      destruct (targetWs s ws); exact Hm.
  - exact (keys_distinct_deletes _ _ (close_scan_deletes ws m) Hm).
  - exact (keys_distinct_deletes _ _ (cleanup_scan_deletes (now e) m) Hm).
Qed.

(** A pin maps to at most one session in every registry the server reaches. *)
Lemma reachable_keys_distinct (m : registry) :
  reachable m -> keys_distinct m = true.
Proof.
  induction 1 as [| m e ev _ IH _]; [reflexivity | now apply step_keys_distinct].
Qed.

(** ** Expiry *)

(** C3 fails as stated: a session created at time 5 is still in the
    registry after a sweep at time 5 + 3600000. *)
Lemma cleanup_keeps_session_at_max_age :
  let m := sessions_after
             (handleCreateSession 1%nat (create_msg "1234" "a.txt" 10) (all_open 5) []) in
  JSMap.get (Some (JStr "1234")) m
  = Some (mkSession 1%nat None (Some (JStr "a.txt")) (Some (JNum (double_of_Z 10))) 5)
  /\ JSMap.get (Some (JStr "1234"))
       (sessions_after (step Tick (all_open (5 + 3600000)) m))
     = Some (mkSession 1%nat None (Some (JStr "a.txt")) (Some (JNum (double_of_Z 10))) 5).
Proof. split; reflexivity. Qed.

(** C3, as the code has it (the maximum age is the constant 3600000 ms).
    A session created at time T, under whatever pin it is stored, is still
    in the registry, unchanged, after a sweep at a time t <= T + 3600000,
    and is no longer in it after a sweep at a time t > T + 3600000 that runs
    to its end; for a session that a lookup of its pin finds, the lookup
    then returns the same session, respectively nothing. *)
Theorem cleanup_expiry (e : env) (m : registry) (pin : value) (s : session) :
  In (pin, s) m ->
  let r := step Tick e m in
  (now e <= created s + 3600000 -> In (pin, s) (sessions_after r))
  /\ (now e > created s + 3600000 -> completion_of r = Normal tt ->
      ~ In (pin, s) (sessions_after r))
  /\ (keys_distinct m = true -> JSMap.get pin m = Some s ->
      (now e <= created s + 3600000 -> JSMap.get pin (sessions_after r) = Some s)
      /\ (now e > created s + 3600000 -> completion_of r = Normal tt ->
          JSMap.get pin (sessions_after r) = None)).
Proof.
  intros Hin. cbv zeta. unfold sessions_after, completion_of. simpl.
  assert (Hexp : now e > created s + 3600000 <-> expired (now e) s = true).
  { unfold expired. rewrite Z.gtb_gt. lia. }
  assert (Hnot : now e <= created s + 3600000 -> expired (now e) s = false).
  { intros H. apply not_true_is_false. intros Hx. apply Hexp in Hx. lia. }
  split; [| split].
  - intros Ht. apply (cleanup_keeps_unexpired _ _ (pin, s) Hin). now apply Hnot.
  - intros Ht Hnormal. rewrite (cleanup_normal_filter _ _ Hnormal).
    intros [_ Hx]%filter_In. simpl in Hx. apply Hexp in Ht. now rewrite Ht in Hx.
  - intros Hm Hget. split.
    + intros Ht. apply get_cleanup_unexpired; [assumption | now apply Hnot].
    + intros Ht Hnormal. rewrite (cleanup_normal_filter _ _ Hnormal).
      apply (get_filter_expired _ _ _ s); [assumption | assumption | now apply Hexp].
Qed.

Lemma cleanup_expiry_witness :
  let m := [(Some (JStr "old"), mkSession 1%nat None None None 0);
            (Some (JArr [JStr "new"]), mkSession 2%nat None None None 1000)] in
  let r := step Tick (all_open 3600001) m in
  In (Some (JArr [JStr "new"]), mkSession 2%nat None None None 1000) (sessions_after r)
  /\ ~ In (Some (JStr "old"), mkSession 1%nat None None None 0) (sessions_after r).
Proof.
  cbv zeta. split.
  - apply (cleanup_expiry (all_open 3600001)
             [(Some (JStr "old"), mkSession 1%nat None None None 0);
              (Some (JArr [JStr "new"]), mkSession 2%nat None None None 1000)]
             (Some (JArr [JStr "new"])) (mkSession 2%nat None None None 1000)).
    + simpl. right. left. reflexivity.
    + simpl. lia.
  - apply (cleanup_expiry (all_open 3600001)
             [(Some (JStr "old"), mkSession 1%nat None None None 0);
              (Some (JArr [JStr "new"]), mkSession 2%nat None None None 1000)]
             (Some (JStr "old")) (mkSession 1%nat None None None 0)).
    + simpl. left. reflexivity.
    + simpl. lia.
    + reflexivity.
Defined.

(** ** Relaying signaling messages *)

Lemma targetWs_initiator (s : session) : targetWs s (sender s) = receiver s.
Proof. unfold targetWs. now rewrite Nat.eqb_refl. Qed.

Lemma targetWs_responder (s : session) (b : endpoint) :
  receiver s = Some b -> targetWs s b = Some (if Nat.eqb (sender s) b then b else sender s).
Proof.
  intros Hb. unfold targetWs. rewrite Hb. simpl. rewrite Nat.eqb_refl.
  now destruct (Nat.eqb (sender s) b).
Qed.

Lemma targetWs_stranger (s : session) (ws : endpoint) :
  sender s <> ws -> receiver s <> Some ws -> targetWs s ws = None.
Proof.
  intros Hs Hr. unfold targetWs.
  destruct (Nat.eqb_spec (sender s) ws) as [| _]; [contradiction |].
  destruct (receiver s) as [b |]; [| reflexivity]. simpl.
  destruct (Nat.eqb_spec b ws) as [-> | _]; [now destruct Hr | reflexivity].
Qed.

Lemma is_open_OPEN (st : ReadyState) : is_open st = true <-> st = OPEN.
Proof. destruct st; simpl; split; congruence. Qed.

Lemma is_open_not_OPEN (st : ReadyState) : st <> OPEN -> is_open st = false.
Proof. destruct st; simpl; congruence. Qed.

(** C4 fails as stated, twice.  First: the session is paired but the
    responder's channel is closed; the initiator's offer is delivered to
    nobody.  Second: both channels are open and the initiator's offer holds
    the number 1e400; the responder is sent the record with null in its
    place, not the record that was submitted. *)
Lemma offer_not_delivered_or_rewritten :
  let m := [(Some (JStr "1234"),
             mkSession 1%nat (Some 2%nat) (Some (JStr "a.txt"))
               (Some (JNum (double_of_Z 10))) 5)] in
  let offer := JObj [("type"%string, JStr "offer"); ("pin"%string, JStr "1234");
                     ("bandwidth"%string, too_large)] in
  sent (on_message 1%nat (Some (offer_msg "1234" "v=0")) (all_open_but 2%nat CLOSED 6) m)
  = []
  /\ sent (on_message 1%nat (Some offer) (all_open 6) m)
     = [(2%nat, JObj [("type"%string, JStr "offer"); ("pin"%string, JStr "1234");
                      ("bandwidth"%string, JNull)])]
  /\ JObj [("type"%string, JStr "offer"); ("pin"%string, JStr "1234");
           ("bandwidth"%string, JNull)] <> offer.
Proof. cbv zeta. repeat split. discriminate. Qed.

(** C4, as the code has it. In a paired session a signaling message of the
    initiator is sent to the responder, and one of the responder to the
    initiator, whenever the peer's channel is open; what is sent is the
    whole decoded record as JSON.stringify writes it and nothing else, and
    that is the record itself when it holds no non-finite number and no
    negative zero. *)
Theorem forwarding_symmetric_verbatim (e : env) (a b : endpoint) (data : json)
    (m : registry) (s : session) :
  is_signaling data = true ->
  JSMap.get (prop data "pin") m = Some s ->
  sender s = a -> receiver s = Some b ->
  (readyState e b = OPEN ->
   on_message a (Some data) e m = (tt, m, [(b, JSON_stringify data)]))
  /\ (readyState e a = OPEN ->
      on_message b (Some data) e m = (tt, m, [(a, JSON_stringify data)]))
  /\ (round_trips data = true -> JSON_stringify data = data).
Proof.
  intros Hsig Hget Ha Hb.
  rewrite !(on_message_signaling _ _ Hsig), !handleSignalingMessage_eq, Hget.
  split; [| split]; [intros Hopen | intros Hopen | apply JSON_stringify_round_trips].
  - subst a. rewrite targetWs_initiator, Hb, Hopen. reflexivity.
  - rewrite (targetWs_responder _ _ Hb). subst a.
    destruct (Nat.eqb_spec (sender s) b) as [Heq | _].
    + rewrite <- Heq at 1. rewrite Hopen. simpl. now rewrite Heq.
    + now rewrite Hopen.
Qed.

Lemma forwarding_witness :
  let m := [(Some (JStr "1234"),
             mkSession 1%nat (Some 2%nat) (Some (JStr "a.txt"))
               (Some (JNum (double_of_Z 10))) 5)] in
  on_message 1%nat (Some (offer_msg "1234" "v=0")) (all_open 6) m
  = (tt, m, [(2%nat, JSON_stringify (offer_msg "1234" "v=0"))])
  /\ on_message 2%nat (Some (offer_msg "1234" "v=0")) (all_open 6) m
     = (tt, m, [(1%nat, JSON_stringify (offer_msg "1234" "v=0"))])
  /\ JSON_stringify (offer_msg "1234" "v=0") = offer_msg "1234" "v=0".
Proof.
  cbv zeta.
  destruct (forwarding_symmetric_verbatim (all_open 6) 1%nat 2%nat
              (offer_msg "1234" "v=0")
              [(Some (JStr "1234"),
                mkSession 1%nat (Some 2%nat) (Some (JStr "a.txt"))
                  (Some (JNum (double_of_Z 10))) 5)]
              (mkSession 1%nat (Some 2%nat) (Some (JStr "a.txt"))
                 (Some (JNum (double_of_Z 10))) 5)
              eq_refl eq_refl eq_refl eq_refl) as (H1 & H2 & H3).
  split; [exact (H1 eq_refl) | split; [exact (H2 eq_refl) | exact (H3 eq_refl)]].
Defined.

(** C7. A signaling message for a pin that keys no session is answered
    session-not-found; when the session exists but the peer is unavailable
    (the responder slot is empty, or the peer's channel is not open) nothing
    is sent at all; the registry is unchanged in both cases. *)
Theorem signaling_unknown_pin_or_peer_unavailable (e : env) (ws : endpoint)
    (data : json) (m : registry) :
  is_signaling data = true ->
  let r := on_message ws (Some data) e m in
  (JSMap.get (prop data "pin") m = None ->
   sessions_after r = m
   /\ sent r = [(ws, JObj [("type"%string, JStr "session-not-found")])])
  /\ (forall s, JSMap.get (prop data "pin") m = Some s ->
      receiver s = None
      \/ (exists b, sender s = ws /\ receiver s = Some b /\ readyState e b <> OPEN)
      \/ (receiver s = Some ws /\ sender s <> ws /\ readyState e (sender s) <> OPEN) ->
      sessions_after r = m /\ sent r = []).
Proof.
  intros Hsig. cbv zeta.
  rewrite (on_message_signaling _ _ Hsig), handleSignalingMessage_eq.
  unfold sessions_after, sent. split.
  - intros ->. now split.
  - intros s -> Hpeer.
    destruct (targetWs s ws) as [t |] eqn:Ht; [| now split].
    assert (Hclosed : is_open (readyState e t) = false).
    { destruct Hpeer as [Hnone | [(b & Hs & Hb & Hst) | (Hr & Hs & Hst)]].
      - unfold targetWs in Ht. rewrite Hnone in Ht. simpl in Ht.
        destruct (Nat.eqb (sender s) ws); discriminate.
      - subst ws. rewrite targetWs_initiator, Hb in Ht.
        injection Ht as <-. now apply is_open_not_OPEN.
      - rewrite (targetWs_responder _ _ Hr) in Ht.
        destruct (Nat.eqb_spec (sender s) ws) as [| _]; [contradiction |].
        injection Ht as <-. now apply is_open_not_OPEN. }
    rewrite Hclosed. now split.
Qed.

Lemma signaling_unknown_pin_witness :
  let r := on_message 1%nat (Some (offer_msg "9999" "v=0")) (all_open 6) [] in
  sessions_after r = []
  /\ sent r = [(1%nat, JObj [("type"%string, JStr "session-not-found")])].
Proof.
  cbv zeta.
  apply (signaling_unknown_pin_or_peer_unavailable (all_open 6) 1%nat
           (offer_msg "9999" "v=0") [] eq_refl).
  reflexivity.
Defined.

(** C10. A signaling message that carries the pin of an existing session
    and comes from a socket that is neither its initiator nor its responder
    is dropped: nothing is sent, to the peer or to the sender, and the
    registry is unchanged. *)
Theorem signaling_from_stranger_dropped (e : env) (ws : endpoint) (data : json)
    (m : registry) (s : session) :
  is_signaling data = true ->
  JSMap.get (prop data "pin") m = Some s ->
  sender s <> ws -> receiver s <> Some ws ->
  on_message ws (Some data) e m = (tt, m, []).
Proof.
  intros Hsig Hget Hs Hr.
  rewrite (on_message_signaling _ _ Hsig), handleSignalingMessage_eq, Hget.
  now rewrite (targetWs_stranger _ _ Hs Hr).
Qed.

Lemma signaling_from_stranger_witness :
  let m := [(Some (JStr "1234"),
             mkSession 1%nat (Some 2%nat) (Some (JStr "a.txt"))
               (Some (JNum (double_of_Z 10))) 5)] in
  on_message 3%nat (Some (offer_msg "1234" "v=0")) (all_open 6) m = (tt, m, []).
Proof.
  cbv zeta.
  apply (signaling_from_stranger_dropped (all_open 6) 3%nat (offer_msg "1234" "v=0") _
           (mkSession 1%nat (Some 2%nat) (Some (JStr "a.txt"))
              (Some (JNum (double_of_Z 10))) 5));
    [reflexivity | reflexivity | discriminate | discriminate].
Defined.

(** ** Which sends reach the wire *)

(** C8. Handling a message never ends by an error, whatever the states of
    the channels.  Of the sends the router makes, exactly those whose
    destination is open put a frame on the wire.  The router itself sends
    receiver-joined and forwarded signaling records to open channels only:
    a send to a channel that is not open is one of the replies
    session-created, pin-taken, session-joined, session-not-found or
    session-full to the requesting socket, and writes nothing. *)
Theorem sends_reach_open_channels_only (e : env) (ws : endpoint)
    (message : option json) (m : registry) :
  let r := step (Message ws message) e m in
  completion_of r = Normal tt
  /\ (forall dst msg,
        In (dst, msg) (written e (sent r)) <->
        In (dst, msg) (sent r) /\ readyState e dst = OPEN)
  /\ (forall dst msg,
        In (dst, msg) (sent r) -> readyState e dst <> OPEN ->
        dst = ws /\ is_reply msg = true /\ ~ In (dst, msg) (written e (sent r))).
Proof.
  cbv zeta. split; [| split].
  - unfold completion_of. simpl. now destruct (fst (fst (on_message ws message e m))).
  - intros dst msg. unfold written. rewrite filter_In. simpl.
    now rewrite is_open_OPEN.
  - intros dst msg Hin Hst.
    assert (Hnot : ~ In (dst, msg) (written e (sent (step (Message ws message) e m)))).
    { unfold written. rewrite filter_In. simpl. rewrite is_open_OPEN. tauto. }
    enough (dst = ws /\ is_reply msg = true) by tauto.
    clear Hnot. revert Hin. unfold sent. simpl.
    destruct (on_message_cases ws message e m)
      as [-> | (data & _ & [-> | [-> | [Hsig ->]]])].
    + intros [].
    + change (In (dst, msg) (sent (handleCreateSession ws data e m)) ->
              dst = ws /\ is_reply msg = true).
      destruct (sent_create ws data e m) as [-> | [-> | ->]];
        [intros [] | |]; intros [[= <- <-] | []]; now split.
    + rewrite handleJoinSession_eq. cbv zeta.
      destruct (JSMap.get _ m) as [s |]; simpl.
      * destruct (receiver s); simpl.
        -- intros [[= <- <-] | []]. now split.
        -- destruct (is_open (readyState e (sender s))) eqn:Hopen; simpl.
           ++ intros [[= <- <-] | [[= <- <-] | []]]; [| now split].
              apply is_open_OPEN in Hopen. contradiction.
           ++ intros [[= <- <-] | []]. now split.
      * intros [[= <- <-] | []]. now split.
    + rewrite handleSignalingMessage_eq.
      destruct (JSMap.get _ m) as [s |]; simpl.
      * destruct (targetWs s ws) as [t |]; simpl; [| intros []].
        destruct (is_open (readyState e t)) eqn:Hopen; simpl; [| intros []].
        intros [[= <- <-] | []]. apply is_open_OPEN in Hopen. contradiction.
      * intros [[= <- <-] | []]. now split.
Qed.

Lemma sends_reach_open_channels_witness :
  let e := all_open_but 2%nat CLOSING 6 in
  let r := step (Message 2%nat (Some (join_msg "1234"))) e
             [(Some (JStr "1234"), mkSession 1%nat None None None 5)] in
  completion_of r = Normal tt
  /\ sent r = [(1%nat, JObj [("type"%string, JStr "receiver-joined")]);
               (2%nat, JObj [("type"%string, JStr "session-joined")])]
  /\ written e (sent r) = [(1%nat, JObj [("type"%string, JStr "receiver-joined")])]
  /\ (2%nat = 2%nat
      /\ is_reply (JObj [("type"%string, JStr "session-joined")]) = true
      /\ ~ In (2%nat, JObj [("type"%string, JStr "session-joined")]) (written e (sent r))).
Proof.
  cbv zeta.
  destruct (sends_reach_open_channels_only (all_open_but 2%nat CLOSING 6) 2%nat
              (Some (join_msg "1234"))
              [(Some (JStr "1234"), mkSession 1%nat None None None 5)])
    as (Hc & _ & H).
  split; [exact Hc |]. split; [reflexivity |]. split; [reflexivity |].
  apply H; [simpl; right; left; reflexivity | discriminate].
Defined.

(** ** Disconnection *)

Lemma close_scan_first (ws : endpoint) (m1 m2 : registry) (p : value) (s : session) :
  forallb (fun x => negb (bound ws (snd x))) m1 = true ->
  bound ws s = true ->
  close_scan ws (m1 ++ (p, s) :: m2) = (interpolate [p], m1 ++ m2).
Proof.
  intros Hm1 Hs. induction m1 as [| [k s0] m1 IH]; simpl in *.
  - now rewrite Hs.
  - apply andb_prop in Hm1 as [Hb Hm1]. apply negb_true_iff in Hb.
    now rewrite Hb, (IH Hm1).
Qed.

Lemma first_bound_split (ws : endpoint) (m : registry) :
  existsb (fun x => bound ws (snd x)) m = true ->
  exists m1 p s m2,
    m = m1 ++ (p, s) :: m2
    /\ forallb (fun x => negb (bound ws (snd x))) m1 = true
    /\ bound ws s = true.
Proof.
  induction m as [| [k s0] m IH]; simpl; [discriminate |].
  destruct (bound ws s0) eqn:Hb; simpl.
  - intros _. exists [], k, s0, m. repeat split; auto.
  - intros (m1 & p & s & m2 & -> & Hm1 & Hs)%IH.
    exists ((k, s0) :: m1), p, s, m2. simpl. rewrite Hb. repeat split; auto.
Qed.

Lemma close_scan_unbound (ws : endpoint) (m : registry) :
  existsb (fun x => bound ws (snd x)) m = false ->
  close_scan ws m = (Normal tt, m).
Proof.
  induction m as [| [k s] m IH]; [reflexivity |]. simpl.
  destruct (bound ws s); simpl; [discriminate |].
  intros H. now rewrite (IH H).
Qed.

(** C5 fails on the code: socket 1 creates the sessions 1111 and 2222 and
    then closes.  The close handler deletes 1111 and stops; 2222 is still
    keyed in the registry, bound to the closed socket, so that a later join
    on it succeeds and a later offer for it is not answered
    session-not-found. *)
Theorem close_leaves_second_session :
  let m := fst (run [(all_open 1, Message 1%nat (Some (create_msg "1111" "a.txt" 10)));
                     (all_open 2, Message 1%nat (Some (create_msg "2222" "b.txt" 20)))]
                    []) in
  let m' := sessions_after (step (Close 1%nat) (all_open_but 1%nat CLOSED 3) m) in
  JSMap.get (Some (JStr "1111")) m' = None
  /\ JSMap.get (Some (JStr "2222")) m'
     = Some (mkSession 1%nat None (Some (JStr "b.txt")) (Some (JNum (double_of_Z 20))) 2)
  /\ sent (on_message 2%nat (Some (join_msg "2222")) (all_open_but 1%nat CLOSED 4) m')
     = [(2%nat, JObj [("type"%string, JStr "session-joined");
                      ("fileName"%string, JStr "b.txt");
                      ("fileSize"%string, JNum (double_of_Z 20))])]
  /\ sent (on_message 2%nat (Some (offer_msg "2222" "v=0")) (all_open_but 1%nat CLOSED 4) m')
     = [].
Proof. repeat split. Qed.

Lemma get_without_keyed_entry (m1 m2 : registry) (p pin : value) (s : session) :
  keys_distinct (m1 ++ (p, s) :: m2) = true ->
  sameValueZero p pin = true ->
  JSMap.get pin (m1 ++ m2) = None.
Proof.
  intros Hm Hpin. induction m1 as [| [k s0] m1 IH]; simpl in *.
  - apply andb_prop in Hm as [Hp _]. exact (misses_get _ _ _ Hp Hpin).
  - apply andb_prop in Hm as [Hk Hm].
    unfold misses in Hk. rewrite forallb_app in Hk.
    apply andb_prop in Hk as [_ Hk]. simpl in Hk.
    apply andb_prop in Hk as [Hk _]. apply negb_true_iff in Hk.
    assert (Hkp : sameValueZero k pin = false).
    { destruct (sameValueZero k pin) eqn:Hx; [| reflexivity].
      rewrite <- Hk. symmetry. apply sameValueZero_trans with (y := pin); [exact Hx |].
      now rewrite sameValueZero_sym. }
    rewrite Hkp. exact (IH Hm).
Qed.

(** When the closing socket is bound to one session only, that session is
    gone afterwards. *)
Lemma close_removes_only_binding (ws : endpoint) (e : env) (m1 m2 : registry)
    (p pin : value) (s : session) :
  keys_distinct (m1 ++ (p, s) :: m2) = true ->
  forallb (fun x => negb (bound ws (snd x))) m1 = true ->
  bound ws s = true ->
  sameValueZero p pin = true ->
  JSMap.get pin (sessions_after (step (Close ws) e (m1 ++ (p, s) :: m2))) = None.
Proof.
  intros Hm Hm1 Hs Hpin. unfold sessions_after. simpl.
  rewrite (close_scan_first _ _ _ _ _ Hm1 Hs). simpl.
  exact (get_without_keyed_entry _ _ _ _ _ Hm Hpin).
Qed.

(** ** The responder binding *)

Lemma step_keeps_paired_session (ev : event) (e : env) (m : registry)
    (pin : value) (s : session) (r : endpoint) :
  keys_distinct m = true ->
  JSMap.get pin m = Some s -> receiver s = Some r ->
  JSMap.get pin (sessions_after (step ev e m)) = Some s
  \/ JSMap.get pin (sessions_after (step ev e m)) = None.
Proof.
  intros Hm Hs Hr. destruct ev as [ws message | ws |]; unfold sessions_after; simpl.
  - left.
    destruct (on_message_cases ws message e m)
      as [-> | (data & _ & [-> | [-> | [_ ->]]])]; [exact Hs | | |].
    + change (JSMap.get pin (sessions_after (handleCreateSession ws data e m)) = Some s).
      rewrite sessions_after_create.
      destruct (JSMap.has _ m) eqn:Hhas; [exact Hs |].
      rewrite (set_fresh _ _ _ Hhas). now apply get_app_left.
    + rewrite handleJoinSession_eq. cbv zeta.
      destruct (JSMap.get (prop data "pin") m) as [s0 |] eqn:Hs0; [| exact Hs].
      destruct (receiver s0) eqn:Hr0; [exact Hs |].
      simpl. exact (get_assign_receiver_paired _ _ _ _ _ _ _ Hs0 Hr0 Hs Hr).
    + rewrite handleSignalingMessage_eq.
      destruct (JSMap.get (prop data "pin") m) as [s0 |]; [| exact Hs].
      destruct (targetWs s0 ws); exact Hs.
  - destruct (get_deletes pin _ _ (close_scan_deletes ws m) Hm) as [-> | ->]; auto.
  - destruct (get_deletes pin _ _ (cleanup_scan_deletes (now e) m) Hm) as [-> | ->];
      auto.
Qed.

(** C6. Once a session has a responder, a join on it is answered
    session-full and changes nothing in the registry, and every event of the
    server (a message of any socket, a close, a sweep) either leaves the
    session keyed by its pin exactly as it is, responder included, or
    removes it: the responder is never reassigned and a join succeeds at
    most once per session. *)
Theorem responder_never_reassigned (e : env) (m : registry) (pin : value)
    (s : session) (r : endpoint) :
  keys_distinct m = true ->
  JSMap.get pin m = Some s -> receiver s = Some r ->
  (forall ws data, prop data "pin" = pin ->
     handleJoinSession ws data e m
     = (tt, m, [(ws, JObj [("type"%string, JStr "session-full")])]))
  /\ (forall ev,
        JSMap.get pin (sessions_after (step ev e m)) = Some s
        \/ JSMap.get pin (sessions_after (step ev e m)) = None).
Proof.
  intros Hm Hs Hr. split.
  - intros ws data <-. rewrite handleJoinSession_eq. cbv zeta.
    now rewrite Hs, Hr.
  - intros ev. exact (step_keeps_paired_session ev e m pin s r Hm Hs Hr).
Qed.

Lemma responder_never_reassigned_witness :
  let m := [(Some (JStr "1234"),
             mkSession 1%nat (Some 2%nat) (Some (JStr "a.txt"))
               (Some (JNum (double_of_Z 10))) 5)] in
  handleJoinSession 3%nat (join_msg "1234") (all_open 6) m
  = (tt, m, [(3%nat, JObj [("type"%string, JStr "session-full")])]).
Proof.
  cbv zeta.
  apply (responder_never_reassigned (all_open 6)
           [(Some (JStr "1234"),
             mkSession 1%nat (Some 2%nat) (Some (JStr "a.txt"))
               (Some (JNum (double_of_Z 10))) 5)]
           (Some (JStr "1234"))
           (mkSession 1%nat (Some 2%nat) (Some (JStr "a.txt"))
              (Some (JNum (double_of_Z 10))) 5)
           2%nat eq_refl eq_refl eq_refl).
  reflexivity.
Defined.

(** ** One socket in several sessions *)

(** C9. A create with a pin that no session holds is accepted whether or
    not the requesting socket is already the initiator of a session: the
    new session is stored with the socket as its initiator beside the old
    one, and session-created is sent unless the log line before it raises.
    When the socket closes, the close handler deletes one session bound to
    it, the first in the Map, and the new session stays in the registry;
    the handler ends as the log line of the deleted pin ends. *)
Theorem create_binds_socket_twice (e e' : env) (ws : endpoint) (data : json)
    (m : registry) (p0 : value) (s0 : session) :
  In (p0, s0) m -> sender s0 = ws ->
  JSMap.has (prop data "pin") m = false ->
  let pin := prop data "pin" in
  let fileName := prop data "fileName" in
  let fileSize := prop data "fileSize" in
  let fresh := mkSession ws None fileName fileSize (now e) in
  let r := handleCreateSession ws data e m in
  sessions_after r = m ++ [(stored_key pin, fresh)]
  /\ (interpolate [pin; fileName; fileSize] = Normal tt ->
      sent r = [(ws, session_created pin fileName fileSize)])
  /\ exists m1 p s m2,
       m = m1 ++ (p, s) :: m2
       /\ forallb (fun x => negb (bound ws (snd x))) m1 = true
       /\ bound ws s = true
       /\ sessions_after (step (Close ws) e' (sessions_after r))
          = m1 ++ m2 ++ [(stored_key pin, fresh)]
       /\ completion_of (step (Close ws) e' (sessions_after r)) = interpolate [p].
Proof.
  intros Hin Hws Hhas. cbv zeta.
  assert (Hm' : sessions_after (handleCreateSession ws data e m)
                = m ++ [(stored_key (prop data "pin"),
                         mkSession ws None (prop data "fileName")
                           (prop data "fileSize") (now e))]).
  { rewrite sessions_after_create, Hhas. now apply set_fresh. }
  rewrite Hm'. split; [reflexivity |]. split.
  - intros Hlog. rewrite handleCreateSession_eq. cbv zeta. now rewrite Hhas, Hlog.
  - destruct (first_bound_split ws m) as (m1 & p & s & m2 & -> & Hm1 & Hs).
    + apply existsb_exists. exists (p0, s0). split; [exact Hin |].
      unfold bound. simpl. rewrite Hws, Nat.eqb_refl. reflexivity.
    + exists m1, p, s, m2. repeat split; auto;
        unfold sessions_after, completion_of; simpl;
        rewrite <- app_assoc; simpl;
        now rewrite (close_scan_first _ _ _ _ _ Hm1 Hs).
Qed.

Lemma create_binds_socket_twice_witness :
  let m := [(Some (JStr "1111"), mkSession 1%nat None None None 1)] in
  let r := handleCreateSession 1%nat (create_msg "2222" "b.txt" 20) (all_open 2) m in
  sessions_after r
  = m ++ [(Some (JStr "2222"),
           mkSession 1%nat None (Some (JStr "b.txt")) (Some (JNum (double_of_Z 20))) 2)]
  /\ sent r = [(1%nat, session_created (Some (JStr "2222")) (Some (JStr "b.txt"))
                         (Some (JNum (double_of_Z 20))))].
Proof.
  cbv zeta.
  destruct (create_binds_socket_twice (all_open 2) (all_open_but 1%nat CLOSED 3) 1%nat
              (create_msg "2222" "b.txt" 20)
              [(Some (JStr "1111"), mkSession 1%nat None None None 1)]
              (Some (JStr "1111")) (mkSession 1%nat None None None 1)
              (or_introl eq_refl) eq_refl eq_refl) as (Hm & Hsent & _).
  split; [exact Hm | exact (Hsent eq_refl)].
Defined.

(** * Further properties of the handlers *)

(** ** Messages the switch does not recognise *)

(** X1. A frame that does not decode, a decoded value without a string
    [type], or a [type] other than create-session, join-session, offer,
    answer and ice-candidate is ignored: nothing is sent and the registry is
    unchanged. *)
Theorem unrecognized_message_ignored (ws : endpoint) (message : option json)
    (e : env) (m : registry) :
  (forall data t, message = Some data -> prop data "type" = Some (JStr t) ->
     t <> "create-session"%string /\ t <> "join-session"%string
     /\ signaling_type t = false) ->
  on_message ws message e m = (tt, m, []).
Proof.
  intros H. destruct message as [data |]; [| reflexivity].
  destruct data as [| b | n | t | l | fields]; try reflexivity.
  unfold on_message. specialize (H (JObj fields)). simpl in *.
  destruct (assoc "type" fields) as [[| b | n | t | l | l] |]; try reflexivity.
  destruct (H t eq_refl eq_refl) as (Hc & Hj & Hs).
  apply String.eqb_neq in Hc, Hj. now rewrite Hc, Hj, Hs.
Qed.

Lemma unrecognized_message_witness :
  on_message 1%nat (Some (JObj [("type"%string, JStr "ping"); ("pin"%string, JStr "1234")]))
    (all_open 6)
    [(Some (JStr "1234"), mkSession 1%nat (Some 2%nat) None None 5)]
  = (tt, [(Some (JStr "1234"), mkSession 1%nat (Some 2%nat) None None 5)], []).
Proof.
  apply unrecognized_message_ignored.
  intros data t [= <-] [= <-]. repeat split; discriminate.
Defined.

(** ** What an event can do to a stored session *)

Lemma get_assign_receiver_any (pin pin' : value) (ws : endpoint) (m : registry)
    (s s0 : session) :
  JSMap.get pin' m = Some s0 -> JSMap.get pin m = Some s ->
  JSMap.get pin (assign_receiver pin' ws m) = Some s
  \/ (s = s0 /\ JSMap.get pin (assign_receiver pin' ws m) = Some (paired ws s)).
Proof.
  induction m as [| [k sx] m IH]; simpl; [discriminate |].
  destruct (sameValueZero k pin') eqn:Hk', (sameValueZero k pin) eqn:Hk;
    simpl; rewrite ?Hk; auto.
  intros [= <-] [= <-]. now right.
Qed.

Lemma message_keeps_session (ws : endpoint) (message : option json) (e : env)
    (m : registry) (pin : value) (s : session) :
  JSMap.get pin m = Some s ->
  JSMap.get pin (sessions_after (on_message ws message e m)) = Some s
  \/ (receiver s = None
      /\ JSMap.get pin (sessions_after (on_message ws message e m)) = Some (paired ws s)).
Proof.
  intros Hs.
  destruct (on_message_cases ws message e m)
    as [-> | (data & _ & [-> | [-> | [_ ->]]])]; [now left | | |].
  - change (sessions_after (try_catch (handleCreateSession ws data) e m))
      with (sessions_after (handleCreateSession ws data e m)).
    rewrite sessions_after_create.
    destruct (JSMap.has _ m) eqn:Hhas; [now left |].
    rewrite (set_fresh _ _ _ Hhas). left. now apply get_app_left.
  - rewrite handleJoinSession_eq. cbv zeta.
    destruct (JSMap.get (prop data "pin") m) as [s0 |] eqn:Hs0; [| now left].
    destruct (receiver s0) eqn:Hr0; [now left |].
    unfold sessions_after. simpl.
    destruct (get_assign_receiver_any pin _ ws m s s0 Hs0 Hs) as [H | [-> H]];
      [now left | now right].
  - rewrite handleSignalingMessage_eq.
    destruct (JSMap.get (prop data "pin") m) as [s0 |]; [| now left].
    destruct (targetWs s0 ws); now left.
Qed.

(** X3. No message deletes a session or rewrites its initiator, file name,
    file size or creation time: after any message the session is still
    keyed by its pin with these fields as they were, and its responder is
    what it was or, for an open session, the socket that sent the message.
    A close or a sweep leaves the session exactly as it was or removes it. *)
Theorem session_fields_never_change (e : env) (m : registry) (pin : value)
    (s : session) :
  keys_distinct m = true ->
  JSMap.get pin m = Some s ->
  (forall ws message,
     exists s', JSMap.get pin (sessions_after (step (Message ws message) e m)) = Some s'
       /\ sender s' = sender s /\ fileName s' = fileName s
       /\ fileSize s' = fileSize s /\ created s' = created s
       /\ (receiver s' = receiver s
           \/ (receiver s = None /\ receiver s' = Some ws)))
  /\ (forall ws,
        JSMap.get pin (sessions_after (step (Close ws) e m)) = Some s
        \/ JSMap.get pin (sessions_after (step (Close ws) e m)) = None)
  /\ (JSMap.get pin (sessions_after (step Tick e m)) = Some s
      \/ JSMap.get pin (sessions_after (step Tick e m)) = None).
Proof.
  intros Hm Hs. split; [| split].
  - intros ws message.
    change (sessions_after (step (Message ws message) e m))
      with (sessions_after (on_message ws message e m)).
    destruct (message_keeps_session ws message e m pin s Hs) as [-> | [Hopen ->]].
    + exists s. repeat split; auto.
    + exists (paired ws s). repeat split; auto.
  - intros ws. unfold sessions_after. simpl.
    destruct (get_deletes pin _ _ (close_scan_deletes ws m) Hm) as [-> | ->]; auto.
  - unfold sessions_after. simpl.
    destruct (get_deletes pin _ _ (cleanup_scan_deletes (now e) m) Hm) as [-> | ->];
      auto.
Qed.

Lemma session_fields_witness :
  let m := [(Some (JStr "1234"),
             mkSession 1%nat None (Some (JStr "a.txt")) (Some (JNum (double_of_Z 10))) 5)] in
  exists s',
    JSMap.get (Some (JStr "1234"))
      (sessions_after (step (Message 2%nat (Some (join_msg "1234"))) (all_open 6) m))
    = Some s'
    /\ sender s' = 1%nat /\ fileName s' = Some (JStr "a.txt")
    /\ fileSize s' = Some (JNum (double_of_Z 10)) /\ created s' = 5
    /\ (receiver s' = None \/ (None = None :> option endpoint /\ receiver s' = Some 2%nat)).
Proof.
  cbv zeta.
  destruct (session_fields_never_change (all_open 6)
              [(Some (JStr "1234"),
                mkSession 1%nat None (Some (JStr "a.txt"))
                  (Some (JNum (double_of_Z 10))) 5)]
              (Some (JStr "1234"))
              (mkSession 1%nat None (Some (JStr "a.txt")) (Some (JNum (double_of_Z 10))) 5)
              eq_refl eq_refl) as [H _].
  exact (H 2%nat (Some (join_msg "1234"))).
Defined.

(** ** Where a message can go *)

Lemma targetWs_bound (s : session) (ws t : endpoint) :
  targetWs s ws = Some t -> bound ws s = true /\ bound t s = true.
Proof.
  unfold targetWs, bound.
  destruct (Nat.eqb (sender s) ws) eqn:Hs; simpl.
  - intros ->. simpl. rewrite Nat.eqb_refl. split; [reflexivity | apply orb_true_r].
  - destruct (same_socket (receiver s) ws) eqn:Hr; [| discriminate].
    intros [= <-]. now rewrite Nat.eqb_refl.
Qed.

(** X4. Whatever a socket sends, the only other sockets the router writes
    to are bound to the session keyed by the pin of that message: either the
    initiator of an open session being joined, who gets receiver-joined, or
    the peer of a session the sending socket is itself bound to, who gets
    the signaling record, the whole of it handed to JSON.stringify. *)
Theorem relay_stays_inside_session (ws : endpoint) (message : option json)
    (e : env) (m : registry) (dst : endpoint) (msg : json) :
  In (dst, msg) (sent (on_message ws message e m)) -> dst <> ws ->
  exists data s,
    message = Some data
    /\ JSMap.get (prop data "pin") m = Some s
    /\ bound dst s = true
    /\ ((dst = sender s /\ receiver s = None /\ msg = receiver_joined s)
        \/ (bound ws s = true /\ is_signaling data = true
            /\ msg = JSON_stringify data)).
Proof.
  destruct (on_message_cases ws message e m)
    as [-> | (data & -> & [-> | [-> | [Hsig ->]]])].
  - intros [].
  - change (sent (try_catch (handleCreateSession ws data) e m))
      with (sent (handleCreateSession ws data e m)).
    destruct (sent_create ws data e m) as [-> | [-> | ->]];
      [intros [] | |]; intros [[= <- _] | []] Hne; now destruct Hne.
  - unfold sent. rewrite handleJoinSession_eq. cbv zeta.
    destruct (JSMap.get _ m) as [s |] eqn:Hs; simpl.
    + destruct (receiver s) eqn:Hr; simpl.
      * intros [[= <- _] | []] Hne. now destruct Hne.
      * destruct (is_open (readyState e (sender s))); simpl.
        -- intros [[= <- <-] | [[= <- _] | []]] Hne; [| now destruct Hne].
           exists data, s. repeat split; auto.
           unfold bound. now rewrite Nat.eqb_refl.
        -- intros [[= <- _] | []] Hne. now destruct Hne.
    + intros [[= <- _] | []] Hne. now destruct Hne.
  - unfold sent. rewrite handleSignalingMessage_eq.
    destruct (JSMap.get _ m) as [s |] eqn:Hs; simpl.
    + destruct (targetWs s ws) as [t |] eqn:Ht; simpl; [| intros []].
      destruct (is_open (readyState e t)); simpl; [| intros []].
      intros [[= <- <-] | []] _.
      destruct (targetWs_bound _ _ _ Ht) as [Hws Hdst].
      exists data, s. repeat split; auto.
    + intros [[= <- _] | []] Hne. now destruct Hne.
Qed.

Lemma relay_stays_inside_session_witness :
  exists data s,
    Some (offer_msg "1234" "v=0") = Some data
    /\ JSMap.get (prop data "pin")
         [(Some (JStr "1234"), mkSession 1%nat (Some 2%nat) None None 5);
          (Some (JStr "5678"), mkSession 3%nat (Some 4%nat) None None 5)]
       = Some s
    /\ bound 2%nat s = true
    /\ ((2%nat = sender s /\ receiver s = None
         /\ offer_msg "1234" "v=0" = receiver_joined s)
        \/ (bound 1%nat s = true /\ is_signaling data = true
            /\ offer_msg "1234" "v=0" = JSON_stringify data)).
Proof.
  apply (relay_stays_inside_session 1%nat (Some (offer_msg "1234" "v=0")) (all_open 6)
           [(Some (JStr "1234"), mkSession 1%nat (Some 2%nat) None None 5);
            (Some (JStr "5678"), mkSession 3%nat (Some 4%nat) None None 5)]
           2%nat (offer_msg "1234" "v=0")).
  - simpl. left. reflexivity.
  - lia.
Defined.

(** ** The sweep *)

Lemma expired_later (t t' : Z) (s : session) :
  t <= t' -> expired t s = true -> expired t' s = true.
Proof. unfold expired. rewrite !Z.gtb_gt. lia. Qed.

Lemma expired_spec (t : Z) (s : session) :
  expired t s = true <-> t > created s + 3600000.
Proof. unfold expired. rewrite Z.gtb_gt. lia. Qed.

Lemma sweep_after_filter (t t' : Z) (m : registry) :
  t <= t' -> fst (cleanup_scan t' m) = Normal tt ->
  cleanup_scan t' (filter (fun x => negb (expired t (snd x))) m) = cleanup_scan t' m.
Proof.
  intros Hle. induction m as [| [k s] m IH]; [reflexivity |]. simpl.
  destruct (expired t s) eqn:Hexp; simpl.
  - rewrite (expired_later _ _ _ Hle Hexp).
    destruct (interpolate [k]); [exact IH | discriminate].
  - destruct (expired t' s).
    + destruct (interpolate [k]); [exact IH | discriminate].
    + intros H. now rewrite (IH H).
Qed.

Lemma cleanup_throw_split (t : Z) (m : registry) :
  fst (cleanup_scan t m) = Throw ->
  exists m1 p s m2,
    m = m1 ++ (p, s) :: m2
    /\ expired t s = true /\ interpolate [p] = Throw
    /\ fst (cleanup_scan t m1) = Normal tt
    /\ snd (cleanup_scan t m) = snd (cleanup_scan t m1) ++ m2.
Proof.
  induction m as [| [k s0] m IH]; simpl; [discriminate |].
  destruct (expired t s0) eqn:Hexp.
  - destruct (interpolate [k]) as [[] |] eqn:Hk.
    + intros (m1 & p & s & m2 & -> & Hs & Hp & Hm1 & Hsnd)%IH.
      exists ((k, s0) :: m1), p, s, m2. simpl. rewrite Hexp, Hk. repeat split; auto.
    + intros _. exists [], k, s0, m. repeat split; auto.
  - simpl. intros (m1 & p & s & m2 & -> & Hs & Hp & Hm1 & Hsnd)%IH.
    exists ((k, s0) :: m1), p, s, m2. simpl. rewrite Hexp. simpl.
    repeat split; auto. now rewrite Hsnd.
Qed.

(** X5. A sweep sends nothing and only deletes, and never a session that
    is not older than 3600000 ms.  It runs to its end exactly when the pin
    of every expired session prints; it then leaves the sessions not older
    than 3600000 ms, unchanged and in their order, and a later sweep that
    runs to its end on the same registry leaves what it would have left
    without the earlier one. *)
Theorem sweep_only_deletes_and_composes (e e' : env) (m : registry) :
  let r := step Tick e m in
  sent r = []
  /\ deletes m (sessions_after r)
  /\ (forall x, In x m -> now e <= created (snd x) + 3600000 -> In x (sessions_after r))
  /\ (completion_of r = Normal tt <->
      forall p s, In (p, s) m -> now e > created s + 3600000 ->
                  interpolate [p] = Normal tt)
  /\ (completion_of r = Normal tt ->
      sessions_after r = filter (fun x => created (snd x) + 3600000 >=? now e) m)
  /\ (completion_of r = Normal tt -> completion_of (step Tick e' m) = Normal tt ->
      now e <= now e' ->
      step Tick e' (sessions_after r) = step Tick e' m).
Proof.
  cbv zeta. unfold sessions_after, sent, completion_of. simpl.
  split; [reflexivity |]. split; [apply cleanup_scan_deletes |].
  split; [| split; [| split]].
  - intros x Hin Hx. apply (cleanup_keeps_unexpired _ _ x Hin).
    apply not_true_is_false. rewrite expired_spec. lia.
  - rewrite cleanup_normal_iff. split; intros H p s Hin Hs; apply (H p s Hin);
      now apply expired_spec.
  - intros Hn. rewrite (cleanup_normal_filter _ _ Hn). apply filter_ext.
    intros [k s]. simpl. unfold expired.
    destruct (Z.gtb_spec (now e - created s) 3600000),
             (Z.geb_spec (created s + 3600000) (now e)); simpl; auto; lia.
  - intros Hn Hn' Hle. rewrite (cleanup_normal_filter _ _ Hn).
    unfold step, cleanup, bind, Date_now, scan. simpl.
    now rewrite (sweep_after_filter _ _ _ Hle Hn').
Qed.

Lemma sweep_composes_witness :
  let m := [(Some (JStr "a"), mkSession 1%nat None None None 0);
            (Some (JStr "b"), mkSession 2%nat None None None 500);
            (Some (JStr "c"), mkSession 3%nat None None None 1000)] in
  step Tick (all_open 3600600) (sessions_after (step Tick (all_open 3600100) m))
  = step Tick (all_open 3600600) m.
Proof.
  cbv zeta.
  apply (sweep_only_deletes_and_composes (all_open 3600100) (all_open 3600600));
    [reflexivity | reflexivity | simpl; lia].
Defined.

(** X14. A sweep that meets an expired session whose pin does not print
    (an array or object that raises in the log line) stops there by an
    uncaught error: the sessions before it have been swept, that session
    has been deleted, and every session after it is still in the registry,
    expired or not. *)
Theorem sweep_stops_at_unprintable_pin (e : env) (m : registry) :
  completion_of (step Tick e m) = Throw ->
  exists m1 p s m2,
    m = m1 ++ (p, s) :: m2
    /\ now e > created s + 3600000 /\ interpolate [p] = Throw
    /\ completion_of (step Tick e m1) = Normal tt
    /\ sessions_after (step Tick e m)
       = filter (fun x => created (snd x) + 3600000 >=? now e) m1 ++ m2.
Proof.
  unfold completion_of, sessions_after. simpl.
  intros (m1 & p & s & m2 & -> & Hs & Hp & Hm1 & Hsnd)%cleanup_throw_split.
  exists m1, p, s, m2. repeat split; auto; [now apply expired_spec |].
  rewrite Hsnd, (cleanup_normal_filter _ _ Hm1). f_equal. apply filter_ext.
  intros [k s']. simpl. unfold expired.
  destruct (Z.gtb_spec (now e - created s') 3600000),
           (Z.geb_spec (created s' + 3600000) (now e)); simpl; auto; lia.
Qed.

Lemma sweep_stops_witness :
  let m := [(Some (JStr "a"), mkSession 1%nat None None None 0);
            (Some (JObj [("toString"%string, JNull)]), mkSession 2%nat None None None 0);
            (Some (JStr "c"), mkSession 3%nat None None None 0)] in
  completion_of (step Tick (all_open 3600001) m) = Throw
  /\ sessions_after (step Tick (all_open 3600001) m)
     = [(Some (JStr "c"), mkSession 3%nat None None None 0)]
  /\ exists m1 p s m2,
       m = m1 ++ (p, s) :: m2
       /\ 3600001 > created s + 3600000 /\ interpolate [p] = Throw
       /\ completion_of (step Tick (all_open 3600001) m1) = Normal tt
       /\ sessions_after (step Tick (all_open 3600001) m)
          = filter (fun x => created (snd x) + 3600000 >=? 3600001) m1 ++ m2.
Proof.
  cbv zeta. split; [reflexivity |]. split; [reflexivity |].
  apply (sweep_stops_at_unprintable_pin (all_open 3600001)). reflexivity.
Defined.

(** ** Disconnection, continued *)

Lemma close_scan_keeps_unbound (ws : endpoint) (m : registry) (p : value) (s : session) :
  In (p, s) m -> bound ws s = false -> In (p, s) (snd (close_scan ws m)).
Proof.
  induction m as [| [k s0] m IH]; [intros [] |]. simpl.
  intros [[= -> ->] | Hin] Hb.
  - rewrite Hb. now left.
  - destruct (bound ws s0); [exact Hin | right; now apply IH].
Qed.

(** X6. A close sends nothing, to the peer or to anyone.  It never deletes
    a session the closing socket is not bound to, it leaves the registry as
    it is when the socket is bound to no session, and otherwise deletes one
    session exactly.  It ends by an uncaught error exactly when the pin of
    the session it deletes does not print. *)
Theorem close_spares_other_sessions (ws : endpoint) (e : env) (m : registry) :
  let r := step (Close ws) e m in
  sent r = []
  /\ (forall p s, In (p, s) m -> bound ws s = false -> In (p, s) (sessions_after r))
  /\ (existsb (fun x => bound ws (snd x)) m = false ->
      sessions_after r = m /\ completion_of r = Normal tt)
  /\ (existsb (fun x => bound ws (snd x)) m = true ->
      S (List.length (sessions_after r)) = List.length m)
  /\ (completion_of r = Throw <->
      exists m1 p s m2,
        m = m1 ++ (p, s) :: m2
        /\ forallb (fun x => negb (bound ws (snd x))) m1 = true
        /\ bound ws s = true /\ interpolate [p] = Throw).
Proof.
  cbv zeta. unfold sessions_after, sent, completion_of. simpl.
  split; [reflexivity |].
  split; [intros p s; apply close_scan_keeps_unbound |].
  split; [intros H; now rewrite (close_scan_unbound _ _ H) |].
  split.
  - intros (m1 & p & s & m2 & -> & Hm1 & Hs)%first_bound_split.
    rewrite (close_scan_first _ _ _ _ _ Hm1 Hs). simpl.
    rewrite !length_app. simpl. lia.
  - split.
    + intros Hthrow.
      destruct (existsb (fun x => bound ws (snd x)) m) eqn:Hex.
      * apply first_bound_split in Hex as (m1 & p & s & m2 & -> & Hm1 & Hs).
        rewrite (close_scan_first _ _ _ _ _ Hm1 Hs) in Hthrow. simpl in Hthrow.
        exists m1, p, s, m2. repeat split; auto.
      * rewrite (close_scan_unbound _ _ Hex) in Hthrow. discriminate.
    + intros (m1 & p & s & m2 & -> & Hm1 & Hs & Hp).
      now rewrite (close_scan_first _ _ _ _ _ Hm1 Hs).
Qed.

Lemma close_spares_other_sessions_witness :
  let m := [(Some (JStr "1234"), mkSession 1%nat (Some 2%nat) None None 5);
            (Some (JStr "5678"), mkSession 3%nat (Some 4%nat) None None 5)] in
  In (Some (JStr "1234"), mkSession 1%nat (Some 2%nat) None None 5)
     (sessions_after (step (Close 4%nat) (all_open 6) m)).
Proof.
  cbv zeta.
  apply (close_spares_other_sessions 4%nat (all_open 6)
           [(Some (JStr "1234"), mkSession 1%nat (Some 2%nat) None None 5);
            (Some (JStr "5678"), mkSession 3%nat (Some 4%nat) None None 5)]).
  - simpl. left. reflexivity.
  - reflexivity.
Defined.

(** X7. When a socket closes, the first session bound to it, as initiator
    or as responder, is no longer keyed by its pin: a later signaling
    message for that pin, from the peer or anyone, is answered
    session-not-found. *)
Theorem close_unkeys_first_bound_session (ws ws' : endpoint) (e e' : env)
    (m1 m2 : registry) (p : value) (s : session) (data : json) :
  keys_distinct (m1 ++ (p, s) :: m2) = true ->
  forallb (fun x => negb (bound ws (snd x))) m1 = true ->
  bound ws s = true ->
  JSMap.get p (m1 ++ (p, s) :: m2) = Some s ->
  is_signaling data = true -> prop data "pin" = p ->
  let m' := sessions_after (step (Close ws) e (m1 ++ (p, s) :: m2)) in
  JSMap.get p m' = None
  /\ on_message ws' (Some data) e' m'
     = (tt, m', [(ws', JObj [("type"%string, JStr "session-not-found")])]).
Proof.
  intros Hm Hm1 Hs Hget Hsig Hpin. cbv zeta.
  assert (Hnone : JSMap.get p
            (sessions_after (step (Close ws) e (m1 ++ (p, s) :: m2))) = None).
  { apply close_removes_only_binding; auto. exact (get_some_self _ _ _ Hget). }
  split; [exact Hnone |].
  rewrite (on_message_signaling _ _ Hsig), handleSignalingMessage_eq, Hpin.
  now rewrite Hnone.
Qed.

Lemma close_unkeys_witness :
  let m' := sessions_after
              (step (Close 4%nat) (all_open 6)
                 ([(Some (JStr "1234"), mkSession 1%nat (Some 2%nat) None None 5)]
                  ++ (Some (JStr "5678"), mkSession 3%nat (Some 4%nat) None None 5)
                     :: [])) in
  JSMap.get (Some (JStr "5678")) m' = None
  /\ on_message 3%nat (Some (offer_msg "5678" "v=0")) (all_open 7) m'
     = (tt, m', [(3%nat, JObj [("type"%string, JStr "session-not-found")])]).
Proof.
  cbv zeta.
  apply (close_unkeys_first_bound_session 4%nat 3%nat (all_open 6) (all_open 7)
           [(Some (JStr "1234"), mkSession 1%nat (Some 2%nat) None None 5)] []
           (Some (JStr "5678")) (mkSession 3%nat (Some 4%nat) None None 5)
           (offer_msg "5678" "v=0"));
    reflexivity.
Defined.

(** ** Creation and joining, together *)

Lemma sessions_after_fresh_create (ws : endpoint) (data : json) (e : env) (m : registry) :
  JSMap.has (prop data "pin") m = false ->
  sessions_after (handleCreateSession ws data e m)
  = m ++ [(stored_key (prop data "pin"),
           mkSession ws None (prop data "fileName") (prop data "fileSize") (now e))].
Proof. intros Hhas. rewrite sessions_after_create, Hhas. now apply set_fresh. Qed.

Lemma get_after_create_join (e1 e2 : env) (ws1 ws2 : endpoint) (datac dataj : json)
    (m : registry) :
  JSMap.has (prop datac "pin") m = false ->
  sameValueZero (prop datac "pin") (prop datac "pin") = true ->
  prop dataj "pin" = prop datac "pin" ->
  JSMap.get (prop datac "pin")
    (sessions_after
       (handleJoinSession ws2 dataj e2
          (sessions_after (handleCreateSession ws1 datac e1 m))))
  = Some (mkSession ws1 (Some ws2) (prop datac "fileName") (prop datac "fileSize")
            (now e1)).
Proof.
  intros Hhas Hpin Hj.
  rewrite (sessions_after_fresh_create _ _ _ _ Hhas), handleJoinSession_eq.
  cbv zeta. rewrite Hj. apply has_false_get in Hhas.
  pose proof (get_snoc_fresh _
                (mkSession ws1 None (prop datac "fileName") (prop datac "fileSize")
                   (now e1)) _ Hhas Hpin) as Hget.
  rewrite Hget. simpl. unfold sessions_after. simpl.
  now rewrite (get_assign_receiver _ _ _ _ Hget).
Qed.

(** X8. A create on a pin that is free, followed by a join that carries
    the same pin (a string, a number, a boolean, null, or no pin at all in
    both messages), pairs the two sockets: the session is stored with the
    creator as initiator, the joiner as responder and the time of the
    create, and the joiner is answered session-joined with the file name and
    size of the create message as JSON.stringify writes them, which is as
    they are unless they hold a non-finite number or a negative zero. *)
Theorem create_then_join (e1 e2 : env) (ws1 ws2 : endpoint) (datac dataj : json)
    (m : registry) :
  JSMap.has (prop datac "pin") m = false ->
  sameValueZero (prop datac "pin") (prop datac "pin") = true ->
  prop dataj "pin" = prop datac "pin" ->
  let m1 := sessions_after (handleCreateSession ws1 datac e1 m) in
  let r := handleJoinSession ws2 dataj e2 m1 in
  JSMap.get (prop datac "pin") (sessions_after r)
  = Some (mkSession ws1 (Some ws2) (prop datac "fileName") (prop datac "fileSize") (now e1))
  /\ (exists reply,
       sent r = (if is_open (readyState e2 ws1)
                 then [(ws1, stringify [("type"%string, Some (JStr "receiver-joined"));
                                        ("fileName"%string, prop datac "fileName");
                                        ("fileSize"%string, prop datac "fileSize")])]
                 else []) ++ [(ws2, reply)]
       /\ prop reply "type" = Some (JStr "session-joined")
       /\ prop reply "fileName" = on_wire (prop datac "fileName")
       /\ prop reply "fileSize" = on_wire (prop datac "fileSize"))
  /\ (value_round_trips (prop datac "fileName") = true ->
      on_wire (prop datac "fileName") = prop datac "fileName")
  /\ (value_round_trips (prop datac "fileSize") = true ->
      on_wire (prop datac "fileSize") = prop datac "fileSize").
Proof.
  intros Hhas Hpin Hj. cbv zeta.
  split; [now apply get_after_create_join |].
  split; [| split; apply on_wire_round_trips].
  rewrite (sessions_after_fresh_create _ _ _ _ Hhas), handleJoinSession_eq.
  cbv zeta. rewrite Hj. apply has_false_get in Hhas.
  rewrite (get_snoc_fresh _
             (mkSession ws1 None (prop datac "fileName") (prop datac "fileSize")
                (now e1)) _ Hhas Hpin).
  simpl. unfold sent. simpl.
  eexists. split; [reflexivity |]. apply metadata_of_reply.
Qed.

Lemma create_then_join_witness :
  let m1 := sessions_after
              (handleCreateSession 1%nat (create_msg "1234" "a.txt" 10) (all_open 5) []) in
  JSMap.get (Some (JStr "1234"))
    (sessions_after (handleJoinSession 2%nat (join_msg "1234") (all_open 6) m1))
  = Some (mkSession 1%nat (Some 2%nat) (Some (JStr "a.txt"))
            (Some (JNum (double_of_Z 10))) 5).
Proof.
  cbv zeta.
  apply (create_then_join (all_open 5) (all_open 6) 1%nat 2%nat
           (create_msg "1234" "a.txt" 10) (join_msg "1234") []);
    reflexivity.
Defined.

(** X9. An accepted create whose log line does not raise is answered
    session-created with the pin, file name and file size of the request as
    JSON.stringify writes them (as they are unless they hold a non-finite
    number or a negative zero), a field that the request lacks being absent
    from the reply.  When the pin, the file name or the file size does not
    print, the log line raises and the message handler catches the error:
    the session is stored all the same and no reply is sent. *)
Theorem session_created_echoes_request (e : env) (ws : endpoint) (data : json)
    (m : registry) :
  JSMap.has (prop data "pin") m = false ->
  let pin := prop data "pin" in
  let fileName := prop data "fileName" in
  let fileSize := prop data "fileSize" in
  let r := handleCreateSession ws data e m in
  (interpolate [pin; fileName; fileSize] = Normal tt ->
   completion_of r = Normal tt
   /\ exists reply,
        sent r = [(ws, reply)]
        /\ prop reply "type" = Some (JStr "session-created")
        /\ prop reply "pin" = on_wire pin
        /\ prop reply "fileName" = on_wire fileName
        /\ prop reply "fileSize" = on_wire fileSize)
  /\ (interpolate [pin; fileName; fileSize] = Throw ->
      completion_of r = Throw /\ sent r = []
      /\ sessions_after r
         = m ++ [(stored_key pin, mkSession ws None fileName fileSize (now e))]
      /\ (prop data "type" = Some (JStr "create-session") ->
          on_message ws (Some data) e m
          = (tt, m ++ [(stored_key pin, mkSession ws None fileName fileSize (now e))],
             [])))
  /\ (forall x, value_round_trips x = true -> on_wire x = x).
Proof.
  intros Hhas. cbv zeta. split; [| split; [| apply on_wire_round_trips]].
  - intros Hlog. rewrite handleCreateSession_eq. cbv zeta. rewrite Hhas, Hlog.
    split; [reflexivity |]. eexists. split; [reflexivity |].
    destruct (prop data "pin"), (prop data "fileName"), (prop data "fileSize");
      repeat split.
  - intros Hlog.
    assert (Hr : handleCreateSession ws data e m
                 = (Throw,
                    m ++ [(stored_key (prop data "pin"),
                           mkSession ws None (prop data "fileName")
                             (prop data "fileSize") (now e))], [])).
    { rewrite handleCreateSession_eq. cbv zeta.
      now rewrite Hhas, Hlog, (set_fresh _ _ _ Hhas). }
    rewrite Hr. repeat split.
    intros Hty. rewrite (on_message_create _ _ Hty). unfold try_catch.
    now rewrite Hr.
Qed.

Lemma session_created_echo_witness :
  let data := JObj [("type"%string, JStr "create-session");
                    ("pin"%string, JNum (double_of_Z 42))] in
  exists reply,
    sent (handleCreateSession 1%nat data (all_open 5) []) = [(1%nat, reply)]
    /\ prop reply "type" = Some (JStr "session-created")
    /\ prop reply "pin" = on_wire (Some (JNum (double_of_Z 42)))
    /\ prop reply "fileName" = on_wire None
    /\ prop reply "fileSize" = on_wire None.
Proof.
  cbv zeta.
  destruct (session_created_echoes_request (all_open 5) 1%nat
              (JObj [("type"%string, JStr "create-session");
                     ("pin"%string, JNum (double_of_Z 42))]) [] eq_refl)
    as (H & _).
  exact (proj2 (H eq_refl)).
Defined.

(** X10. A pin that is a JSON array or object keys nothing a later message
    can reach: a create with such a pin stores a session whatever the
    registry holds, answering session-created unless its log line raises,
    and a join or a signaling message with such a pin is answered
    session-not-found whatever the registry holds. *)
Theorem structured_pin_never_matches (e : env) (ws : endpoint) (data : json)
    (m : registry) :
  (exists l, prop data "pin" = Some (JArr l))
  \/ (exists f, prop data "pin" = Some (JObj f)) ->
  let pin := prop data "pin" in
  let fileName := prop data "fileName" in
  let fileSize := prop data "fileSize" in
  handleCreateSession ws data e m
  = (interpolate [pin; fileName; fileSize],
     m ++ [(pin, mkSession ws None fileName fileSize (now e))],
     match interpolate [pin; fileName; fileSize] with
     | Normal _ => [(ws, session_created pin fileName fileSize)]
     | Throw => []
     end)
  /\ handleJoinSession ws data e m
     = (tt, m, [(ws, JObj [("type"%string, JStr "session-not-found")])])
  /\ handleSignalingMessage ws data e m
     = (tt, m, [(ws, JObj [("type"%string, JStr "session-not-found")])]).
Proof.
  intros Hpin. cbv zeta.
  assert (Hget : JSMap.get (prop data "pin") m = None).
  { apply get_none_misses, forallb_forall. intros [k s] _. simpl.
    destruct Hpin as [[l ->] | [f ->]];
      now destruct k as [[| b | n | t | l' | l'] |]. }
  assert (Hkey : stored_key (prop data "pin") = prop data "pin").
  { now destruct Hpin as [[l ->] | [f ->]]. }
  rewrite handleCreateSession_eq, handleJoinSession_eq, handleSignalingMessage_eq.
  cbv zeta. rewrite Hget, (proj2 (has_false_get _ _) Hget).
  rewrite (set_fresh _ _ _ (proj2 (has_false_get _ _) Hget)), Hkey.
  repeat split. now destruct (interpolate _) as [[] |].
Qed.

Lemma structured_pin_witness :
  let data := JObj [("type"%string, JStr "join-session");
                    ("pin"%string, JArr [JNum (double_of_Z 1)])] in
  let m := sessions_after (handleCreateSession 1%nat data (all_open 5) []) in
  handleJoinSession 2%nat data (all_open 6) m
  = (tt, m, [(2%nat, JObj [("type"%string, JStr "session-not-found")])]).
Proof.
  cbv zeta.
  apply (structured_pin_never_matches (all_open 6) 2%nat
           (JObj [("type"%string, JStr "join-session");
                  ("pin"%string, JArr [JNum (double_of_Z 1)])])).
  left. exists [JNum (double_of_Z 1)]. reflexivity.
Defined.

(** X11. The join handler does not compare the joiner with the initiator:
    the initiator of an open session can join it, is sent both
    receiver-joined and session-joined, and from then on its signaling
    messages for that pin are forwarded back to itself. *)
Theorem initiator_can_join_own_session (e e' : env) (ws : endpoint)
    (data data' : json) (m : registry) (s : session) :
  JSMap.get (prop data "pin") m = Some s ->
  receiver s = None -> sender s = ws ->
  readyState e ws = OPEN -> readyState e' ws = OPEN ->
  is_signaling data' = true -> prop data' "pin" = prop data "pin" ->
  let r := handleJoinSession ws data e m in
  sent r = [(ws, receiver_joined s); (ws, session_joined s)]
  /\ on_message ws (Some data') e' (sessions_after r)
     = (tt, sessions_after r, [(ws, JSON_stringify data')]).
Proof.
  intros Hget Hopen Hws He He' Hsig Hpin. cbv zeta.
  rewrite (on_message_signaling _ _ Hsig), handleSignalingMessage_eq, Hpin.
  rewrite handleJoinSession_eq. cbv zeta. rewrite Hget, Hopen, Hws, He.
  unfold sessions_after, sent. cbn [fst snd is_open app].
  split; [reflexivity |].
  rewrite (get_assign_receiver _ ws _ _ Hget).
  unfold targetWs, paired. cbn [sender receiver].
  now rewrite Hws, Nat.eqb_refl, He'.
Qed.

Lemma initiator_joins_own_session_witness :
  let m := [(Some (JStr "1234"),
             mkSession 1%nat None (Some (JStr "a.txt")) (Some (JNum (double_of_Z 10))) 5)] in
  let r := handleJoinSession 1%nat (join_msg "1234") (all_open 6) m in
  on_message 1%nat (Some (offer_msg "1234" "v=0")) (all_open 7) (sessions_after r)
  = (tt, sessions_after r, [(1%nat, JSON_stringify (offer_msg "1234" "v=0"))]).
Proof.
  cbv zeta.
  apply (initiator_can_join_own_session (all_open 6) (all_open 7) 1%nat
           (join_msg "1234") (offer_msg "1234" "v=0")
           [(Some (JStr "1234"),
             mkSession 1%nat None (Some (JStr "a.txt")) (Some (JNum (double_of_Z 10))) 5)]
           (mkSession 1%nat None (Some (JStr "a.txt")) (Some (JNum (double_of_Z 10))) 5));
    reflexivity.
Defined.

(** X12. Age alone does not free a pin: while a session older than
    3600000 ms has not been swept, a create on its pin is still answered
    pin-taken; once a sweep has run to its end, the same create is accepted
    and the new session is the one keyed by the pin. *)
Theorem pin_free_again_after_sweep (e : env) (ws : endpoint) (data : json)
    (m : registry) (s : session) :
  keys_distinct m = true ->
  JSMap.get (prop data "pin") m = Some s ->
  now e > created s + 3600000 ->
  completion_of (step Tick e m) = Normal tt ->
  let fresh := mkSession ws None (prop data "fileName") (prop data "fileSize") (now e) in
  let m1 := sessions_after (step Tick e m) in
  handleCreateSession ws data e m
  = (Normal tt, m, [(ws, JObj [("type"%string, JStr "pin-taken")])])
  /\ sessions_after (handleCreateSession ws data e m1)
     = m1 ++ [(stored_key (prop data "pin"), fresh)]
  /\ JSMap.get (prop data "pin") (sessions_after (handleCreateSession ws data e m1))
     = Some fresh.
Proof.
  intros Hm Hget Hold Hnormal. cbv zeta.
  assert (Hgone : JSMap.get (prop data "pin") (sessions_after (step Tick e m)) = None).
  { unfold sessions_after, completion_of in *. simpl in *.
    rewrite (cleanup_normal_filter _ _ Hnormal).
    apply (get_filter_expired _ _ _ s); [assumption | assumption |].
    now apply expired_spec. }
  apply has_false_get in Hgone.
  rewrite (sessions_after_fresh_create _ _ _ _ Hgone).
  split; [| split; [reflexivity |]].
  - rewrite handleCreateSession_eq. cbv zeta. unfold JSMap.has. now rewrite Hget.
  - apply get_snoc_fresh; [now apply has_false_get | exact (get_some_self _ _ _ Hget)].
Qed.

Lemma pin_free_again_witness :
  let m := [(Some (JStr "1234"), mkSession 1%nat None None None 0)] in
  let data := create_msg "1234" "b.txt" 20 in
  handleCreateSession 2%nat data (all_open 3600001) m
  = (Normal tt, m, [(2%nat, JObj [("type"%string, JStr "pin-taken")])])
  /\ sessions_after
       (handleCreateSession 2%nat data (all_open 3600001)
          (sessions_after (step Tick (all_open 3600001) m)))
     = [(Some (JStr "1234"),
         mkSession 2%nat None (Some (JStr "b.txt")) (Some (JNum (double_of_Z 20)))
           3600001)].
Proof.
  cbv zeta.
  destruct (pin_free_again_after_sweep (all_open 3600001) 2%nat
              (create_msg "1234" "b.txt" 20)
              [(Some (JStr "1234"), mkSession 1%nat None None None 0)]
              (mkSession 1%nat None None None 0) eq_refl eq_refl)
    as (H1 & H2 & _).
  - simpl. lia.
  - reflexivity.
  - split; [exact H1 | exact H2].
Defined.

(** ** The whole handshake *)

(** X13. After a create on a free pin and a join with the same pin, the two
    sockets relay to each other: with both channels open, an offer, answer
    or ice-candidate that carries the pin goes from the creator to the
    joiner and from the joiner to the creator, the whole record as
    JSON.stringify writes it (as it is when it holds no non-finite number
    and no negative zero), the registry unchanged. *)
Theorem handshake_relays_both_ways (e1 e2 e3 : env) (ws1 ws2 : endpoint)
    (datac dataj d : json) (m : registry) :
  JSMap.has (prop datac "pin") m = false ->
  sameValueZero (prop datac "pin") (prop datac "pin") = true ->
  prop dataj "pin" = prop datac "pin" ->
  is_signaling d = true -> prop d "pin" = prop datac "pin" ->
  readyState e3 ws1 = OPEN -> readyState e3 ws2 = OPEN ->
  let m2 := sessions_after
              (handleJoinSession ws2 dataj e2
                 (sessions_after (handleCreateSession ws1 datac e1 m))) in
  on_message ws1 (Some d) e3 m2 = (tt, m2, [(ws2, JSON_stringify d)])
  /\ on_message ws2 (Some d) e3 m2 = (tt, m2, [(ws1, JSON_stringify d)])
  /\ (round_trips d = true -> JSON_stringify d = d).
Proof.
  intros Hhas Hpin Hj Hsig Hd H1 H2. cbv zeta.
  pose proof (get_after_create_join e1 e2 ws1 ws2 datac dataj m Hhas Hpin Hj) as Hget.
  rewrite !(on_message_signaling _ _ Hsig), !handleSignalingMessage_eq, Hd, Hget.
  unfold targetWs. cbn [sender receiver same_socket].
  rewrite !Nat.eqb_refl, H2. cbn [is_open].
  split; [reflexivity |]. split; [| apply JSON_stringify_round_trips].
  destruct (Nat.eqb_spec ws1 ws2) as [<- | _]; now rewrite H1.
Qed.

Lemma handshake_witness :
  let m2 := sessions_after
              (handleJoinSession 2%nat (join_msg "1234") (all_open 6)
                 (sessions_after
                    (handleCreateSession 1%nat (create_msg "1234" "a.txt" 10)
                       (all_open 5) []))) in
  on_message 1%nat (Some (offer_msg "1234" "v=0")) (all_open 7) m2
  = (tt, m2, [(2%nat, JSON_stringify (offer_msg "1234" "v=0"))])
  /\ on_message 2%nat (Some (offer_msg "1234" "v=0")) (all_open 7) m2
     = (tt, m2, [(1%nat, JSON_stringify (offer_msg "1234" "v=0"))]).
Proof.
  cbv zeta.
  destruct (handshake_relays_both_ways (all_open 5) (all_open 6) (all_open 7)
              1%nat 2%nat
              (create_msg "1234" "a.txt" 10) (join_msg "1234") (offer_msg "1234" "v=0")
              [] eq_refl eq_refl eq_refl eq_refl eq_refl eq_refl eq_refl)
    as (H1 & H2 & _).
  split; [exact H1 | exact H2].
Defined.
